(** * trading_game: the market-making engine (engine.ts)

    A shallow embedding of [MarketMakingEngine] and of the helpers it uses.
    A JavaScript [number] is an IEEE-754 binary64 value, modelled by Rocq's
    primitive [float] (the same format, round-to-nearest-even), so every
    arithmetic step of the source is the same operation here.  The 32-bit
    integer arithmetic of [mulberry32] is modelled on [Z] with its wrap-around
    written out. *)

From Stdlib Require Import ZArith List String Bool Lia.
From Stdlib Require Import Floats.
Import ListNotations.

Set Warnings "-inexact-float".

Local Open Scope float_scope.

(** ** JavaScript numbers *)

Module JS.

(** [Number.isFinite] on a number. *)
Definition isFinite (x : float) : bool := is_finite x.

(** [Math.abs]. *)
Definition abs (x : float) : float := PrimFloat.abs x.

(** [Math.max(a, b)]: NaN if either argument is NaN, and +0 is larger than -0. *)
Definition max (a b : float) : float :=
  if is_nan a || is_nan b then nan
  else if a <? b then b
  else if b <? a then a
  else if is_zero a && get_sign a then b else a.

(** [Math.min(a, b)]: NaN if either argument is NaN, and -0 is smaller than +0. *)
Definition min (a b : float) : float :=
  if is_nan a || is_nan b then nan
  else if a <? b then a
  else if b <? a then b
  else if is_zero a && get_sign a then a else b.

(** [Math.sqrt], correctly rounded. *)
Definition sqrt (x : float) : float := PrimFloat.sqrt x.

(** [Math.PI]. *)
Definition PI : float := 0x1.921fb54442d18p+1.

(** The integer a finite number truncates to (ECMAScript's
    [truncate(ℝ(x))]); 0 for NaN and the infinities. *)
Definition truncZ (x : float) : Z :=
  match Prim2SF x with
  | S754_finite s m e =>
      let n := Z.shiftl (Zpos m) e in if s then (- n)%Z else n
  | _ => 0%Z
  end.

(** [ToUint32] and [ToInt32] on an integer. *)
Definition wrapU32 (z : Z) : Z := (z mod 4294967296)%Z.
Definition wrapI32 (z : Z) : Z :=
  let u := wrapU32 z in
  if (2147483648 <=? u)%Z then (u - 4294967296)%Z else u.

(** [x >>> 0] on a number. *)
Definition toUint32 (x : float) : Z := wrapU32 (truncZ x).

(** The number an integer below 2^53 in size denotes (exact). *)
Definition ofZ (z : Z) : float :=
  match z with
  | Z0 => 0
  | Zpos _ => of_uint63 (Uint63.of_Z z)
  | Zneg p => - of_uint63 (Uint63.of_Z (Zpos p))
  end.

(** Bit operators on 32-bit integers, as the code uses them. *)
Definition bor (a b : Z) : Z := wrapI32 (Z.lor (wrapI32 a) (wrapI32 b)).
Definition bxor (a b : Z) : Z := wrapI32 (Z.lxor (wrapI32 a) (wrapI32 b)).
Definition ushr (a n : Z) : Z := Z.shiftr (wrapU32 a) n.
Definition imul (a b : Z) : Z := wrapI32 (wrapI32 a * wrapI32 b).

End JS.

(** ** The seeded generator (engine.ts, [mulberry32]) *)

(** The closure returned by [mulberry32(seed)] owns one variable [a]; this is
    the closure's state when it is created ([let a = seed >>> 0]). *)
Definition mulberry32 (seed : float) : Z := JS.toUint32 seed.

(** One call of the closure: the number returned and the new value of [a]. *)
Definition mulberry32_next (a : Z) : float * Z :=
  let a := JS.bor a 0 in
  let a := JS.bor (a + 0x6d2b79f5) 0 in
  let t := JS.imul (JS.bxor a (JS.ushr a 15)) (JS.bor 1 a) in
  let t := JS.bxor (t + JS.imul (JS.bxor t (JS.ushr t 7)) (JS.bor 61 t)) t in
  (JS.ofZ (JS.ushr (JS.bxor t (JS.ushr t 14)) 0) / 4294967296, a).

(** ** Data model (scenarios.ts, engine.ts) *)

Module Scenario.
Record t : Type := mk
  { id : string;
    prompt : string;
    unit : string;
    trueValue : float;
    min : option float;
    max : option float;
    hint : option string;
    tags : option (list string) }.
End Scenario.

Inductive SpreadType : Type := predefined | percent.

Record Settings : Type := mkSettings
  { durationSec : float;
    spreadType : SpreadType;
    predefinedSpread : float;
    percentSpread : float;
    inventoryLimit : float;
    riskAversion : float;
    invSkew : float;
    spreadWiden : float;
    seed : option float }.

Record Quote : Type := mkQuote { bid : float; ask : float }.

Inductive Side : Type := BUY | SELL.

Module Fill.
Record t : Type := mk
  { side : Side;
    price : float;
    qty : float;
    scenario : Scenario.t;
    fair : float;
    ts : float }.
End Fill.

Record State : Type := mkState
  { cash : float;
    inv : float;
    realized : float;
    lastMark : option float;
    fills : list Fill.t }.

(** The object [pnl] returns. *)
Module PnL.
Record t : Type := mk { cash : float; inv : float; mtm : float; riskAdj : float }.
End PnL.

(** The engine's generator: the [mulberry32] closure with its variable [a], or
    [Math.random], an outside source of numbers read one after the other. *)
Inductive Rng : Type :=
| Mulberry (a : Z)
| MathRandom (src : nat -> float) (pos : nat).

Record Engine : Type := mkEngine
  { rng : Rng;
    settings : Settings;
    state : State }.

(** ** Methods mutate the engine and may throw *)

Inductive Outcome (A : Type) : Type :=
| Returned (v : A) (e : Engine)
| Thrown (msg : string) (e : Engine).
Arguments Returned {A} v e.
Arguments Thrown {A} msg e.

Definition M (A : Type) : Type := Engine -> Outcome A.

Definition ret {A} (v : A) : M A := fun e => Returned v e.
Definition throw {A} (msg : string) : M A := fun e => Thrown msg e.
Definition bind {A B} (m : M A) (k : A -> M B) : M B :=
  fun e => match m e with
           | Returned v e' => k v e'
           | Thrown msg e' => Thrown msg e'
           end.

Notation "x <- m ;; k" := (bind m (fun x => k))
  (at level 61, m at next level, right associativity).
Notation "m ;;; k" := (bind m (fun _ => k))
  (at level 61, right associativity).

(** [this.state] and [this.settings]. *)
Definition getState : M State := fun e => Returned (state e) e.
Definition getSettings : M Settings := fun e => Returned (settings e) e.
Definition setState (s : State) : M unit :=
  fun e => Returned tt (mkEngine (rng e) (settings e) s).

(** [this.rng()]. *)
Definition callRng : M float :=
  fun e => match rng e with
           | Mulberry a =>
               let '(x, a') := mulberry32_next a in
               Returned x (mkEngine (Mulberry a') (settings e) (state e))
           | MathRandom src pos =>
               Returned (src pos) (mkEngine (MathRandom src (S pos)) (settings e) (state e))
           end.

Definition clamp (x lo hi : float) : float := JS.min hi (JS.max lo x).

(** [new MarketMakingEngine(settings)]; [random] is what [Math.random] would
    return, call after call, were it used. *)
Definition construct (random : nat -> float) (s : Settings) : Engine :=
  mkEngine (match seed s with
            | Some sd => Mulberry (mulberry32 sd)
            | None => MathRandom random 0
            end)
           s
           (mkState 0 0 0 None []).

(** [Math.log], [Math.cos] and [Math.exp] are implementation-approximated in
    ECMAScript: the engine is defined over any implementation of them. *)
Record MathImpl : Type := mkMath
  { Math_log : float -> float;
    Math_cos : float -> float;
    Math_exp : float -> float }.

Section Engine.

Variable Math : MathImpl.

Definition sampleFair (trueValue : float) : M float :=
  u <- callRng ;;
  let sigma := 0.18 in
  v <- callRng ;;
  let z := JS.sqrt (-2 * Math_log Math (JS.max 1e-12 u))
           * Math_cos Math (2 * JS.PI * v) in
  let mult := Math_exp Math (sigma * z) in
  ret (trueValue * mult).

Definition quoteSanity (q : Quote) : M unit :=
  if negb (JS.isFinite (bid q)) || negb (JS.isFinite (ask q)) then throw "Bad quote"
  else if (bid q <=? 0) || (ask q <=? 0) then throw "Bid/ask must be > 0"
  else if ask q <=? bid q then throw "Bid must be < ask"
  else ret tt.

(** Lines 102-109 of [submitQuote]: the directional trade, decided from the
    probabilities, the damping factor and the draw [r]. *)
Definition directional (q : Quote) (sc : Scenario.t) (qty fair now : float)
    (pBuy pSell damp r : float) : option Fill.t :=
  if (0.60 <? pBuy * damp) && (r <? pBuy * damp) then
    Some (Fill.mk SELL (ask q) qty sc fair now)
  else if (0.60 <? pSell * damp) && (r <? pSell * damp) then
    Some (Fill.mk BUY (bid q) qty sc fair now)
  else None.

(** Lines 111-120: the random flow, consulted when there is no fill yet. *)
Definition randomFlow (q : Quote) (sc : Scenario.t) (qty fair now : float)
    (damp : float) (fill : option Fill.t) : M (option Fill.t) :=
  match fill with
  | Some f => ret (Some f)
  | None =>
      flow <- callRng ;;
      if flow <? 0.06 * damp then
        s <- callRng ;;
        let side := if s <? 0.5 then BUY else SELL in
        ret (Some (match side with
                   | BUY => Fill.mk BUY (bid q) qty sc fair now
                   | SELL => Fill.mk SELL (ask q) qty sc fair now
                   end))
      else ret None
  end.

(** Lines 128-138: the fill applied to the ledger. *)
Definition applyFill (fill : Fill.t) (sc : Scenario.t) : M unit :=
  st <- getState ;;
  let '(inv', cash') :=
    match Fill.side fill with
    | BUY => (inv st + Fill.qty fill, cash st - Fill.price fill * Fill.qty fill)
    | SELL => (inv st - Fill.qty fill, cash st + Fill.price fill * Fill.qty fill)
    end in
  setState (mkState cash' inv' (realized st)
                    (Some (Scenario.trueValue sc)) (fills st ++ [fill])).

(** [submitQuote(q, scenario, qty)]; [now] is what [Date.now()] returns
    during the call. *)
Definition submitQuote (q : Quote) (sc : Scenario.t) (qty : float) (now : float)
    : M (option Fill.t) :=
  quoteSanity q ;;;
  fair <- sampleFair (Scenario.trueValue sc) ;;
  let edgeBuy := fair - ask q in
  let edgeSell := bid q - fair in
  let scale := JS.max 1 (0.06 * Scenario.trueValue sc) in
  let pBuy := 1 / (1 + Math_exp Math (- edgeBuy / scale)) in
  let pSell := 1 / (1 + Math_exp Math (- edgeSell / scale)) in
  st <- getState ;;
  cfg <- getSettings ;;
  let invPressure := JS.abs (inv st) / JS.max 1 (inventoryLimit cfg) in
  let damp := clamp (1 - 0.35 * invPressure) 0.35 1 in
  r <- callRng ;;
  fill <- randomFlow q sc qty fair now damp
            (directional q sc qty fair now pBuy pSell damp r) ;;
  match fill with
  | None => ret None
  | Some fill =>
      st <- getState ;;
      let nextInv := inv st + (match Fill.side fill with
                               | BUY => Fill.qty fill
                               | SELL => - Fill.qty fill
                               end) in
      if inventoryLimit cfg <? JS.abs nextInv then ret None
      else applyFill fill sc ;;; ret (Some fill)
  end.

(** The default of the third parameter ([qty = 1]). *)
Definition submitQuote1 (q : Quote) (sc : Scenario.t) (now : float) : M (option Fill.t) :=
  submitQuote q sc 1 now.

Definition pnl (mark : float) : M PnL.t :=
  st <- getState ;;
  cfg <- getSettings ;;
  let unreal := inv st * mark in
  let raw := cash st + unreal in
  let riskPenalty := riskAversion cfg * JS.abs (inv st) * 0.01 * mark in
  ret (PnL.mk (cash st) (inv st) raw (raw - riskPenalty)).

Definition defaultQuote (estimate : float) : M Quote :=
  st <- getState ;;
  cfg <- getSettings ;;
  let inv := inv st in
  let invLimit := JS.max 1 (inventoryLimit cfg) in
  let invNorm := clamp (inv / invLimit) (-1) 1 in
  let baseHalf :=
    match spreadType cfg with
    | percent => JS.max (estimate * percentSpread cfg * 0.5) 1e-6
    | predefined => JS.max (predefinedSpread cfg * 0.5) 1e-6
    end in
  let widen := 1 + spreadWiden cfg * JS.abs invNorm in
  let half := baseHalf * widen in
  let midShift := - invSkew cfg * invNorm * half in
  let mid := estimate + midShift in
  ret (mkQuote (JS.max 1e-6 (mid - half)) (mid + half)).

Definition breakEven : M (option float) :=
  st <- getState ;;
  if inv st =? 0 then ret None
  else ret (Some (- cash st / inv st)).

End Engine.

(** * Derived notions used by the statements *)

(** The sanity contract of a quote, as the specification words it. *)
Definition validQuote (q : Quote) : bool :=
  JS.isFinite (bid q) && JS.isFinite (ask q)
  && (0 <? bid q) && (0 <? ask q) && (bid q <? ask q).

Definition failsSanity (q : Quote) : bool :=
  negb (JS.isFinite (bid q)) || negb (JS.isFinite (ask q))
  || (bid q <=? 0) || (ask q <=? 0) || (ask q <=? bid q).

(** The messages of the errors [quoteSanity] throws. *)
Definition sanityErrors : list string :=
  ["Bad quote"; "Bid/ask must be > 0"; "Bid must be < ask"]%string.

(** The signed quantity a fill adds to the inventory. *)
Definition signedQty (f : Fill.t) : float :=
  match Fill.side f with BUY => Fill.qty f | SELL => - Fill.qty f end.

(** The ledger after an accepted fill. *)
Definition ledgerAfter (st : State) (f : Fill.t) (sc : Scenario.t) : State :=
  match Fill.side f with
  | BUY => mkState (cash st - Fill.price f * Fill.qty f) (inv st + Fill.qty f)
                   (realized st) (Some (Scenario.trueValue sc)) (fills st ++ [f])
  | SELL => mkState (cash st + Fill.price f * Fill.qty f) (inv st - Fill.qty f)
                    (realized st) (Some (Scenario.trueValue sc)) (fills st ++ [f])
  end.

(** The two ways an accepted fill moves cash and inventory. *)
Definition BuyApplied (e e' : Engine) (f : Fill.t) : Prop :=
  Fill.side f = BUY
  /\ cash (state e') = cash (state e) - Fill.price f * Fill.qty f
  /\ inv (state e') = inv (state e) + Fill.qty f.

Definition SellApplied (e e' : Engine) (f : Fill.t) : Prop :=
  Fill.side f = SELL
  /\ cash (state e') = cash (state e) + Fill.price f * Fill.qty f
  /\ inv (state e') = inv (state e) - Fill.qty f.

(** What an accepted fill [f], returned by [submitQuote q sc qty], has done
    to the engine: [e] before the call, [e'] after. *)
Definition FillApplied (q : Quote) (sc : Scenario.t) (qty : float)
    (e e' : Engine) (f : Fill.t) : Prop :=
  (BuyApplied e e' f \/ SellApplied e e' f)
  /\ ~ (BuyApplied e e' f /\ SellApplied e e' f)
  /\ fills (state e') = fills (state e) ++ [f]
  /\ List.length (fills (state e')) = S (List.length (fills (state e)))
  /\ lastMark (state e') = Some (Scenario.trueValue sc)
  /\ realized (state e') = realized (state e)
  /\ settings e' = settings e
  /\ Fill.qty f = qty
  /\ Fill.price f = match Fill.side f with BUY => bid q | SELL => ask q end.

(** What a call of [submitQuote] can come to. *)
Inductive SubmitResult (q : Quote) (sc : Scenario.t) (qty now : float) (e : Engine)
  : Outcome (option Fill.t) -> Prop :=
| SR_throw msg :
    failsSanity q = true ->
    In msg sanityErrors ->
    SubmitResult q sc qty now e (Thrown msg e)
| SR_none e' :
    failsSanity q = false ->
    settings e' = settings e -> state e' = state e ->
    SubmitResult q sc qty now e (Returned None e')
| SR_fill f e' :
    failsSanity q = false ->
    settings e' = settings e ->
    Fill.qty f = qty -> Fill.scenario f = sc -> Fill.ts f = now ->
    Fill.price f = match Fill.side f with BUY => bid q | SELL => ask q end ->
    (inventoryLimit (settings e) <? JS.abs (inv (state e) + signedQty f)) = false ->
    state e' = ledgerAfter (state e) f sc ->
    SubmitResult q sc qty now e (Returned (Some f) e').


(** The local constants [half] and [mid] of [defaultQuote]: the widened
    half-spread and the skewed mid. *)
Definition quoteHalf (e : Engine) (estimate : float) : float :=
  let inv := inv (state e) in
  let invLimit := JS.max 1 (inventoryLimit (settings e)) in
  let invNorm := clamp (inv / invLimit) (-1) 1 in
  let baseHalf :=
    match spreadType (settings e) with
    | percent => JS.max (estimate * percentSpread (settings e) * 0.5) 1e-6
    | predefined => JS.max (predefinedSpread (settings e) * 0.5) 1e-6
    end in
  let widen := 1 + spreadWiden (settings e) * JS.abs invNorm in
  baseHalf * widen.

Definition quoteMid (e : Engine) (estimate : float) : float :=
  let inv := inv (state e) in
  let invLimit := JS.max 1 (inventoryLimit (settings e)) in
  let invNorm := clamp (inv / invLimit) (-1) 1 in
  let midShift := - invSkew (settings e) * invNorm * quoteHalf e estimate in
  estimate + midShift.

(** The fresh state of the constructor. *)
Definition freshState : State := mkState 0 0 0 None [].

(** ** Sequences of calls *)

(** One call of [submitQuote], with what [Date.now()] reads during it. *)
Record Call : Type := mkCall
  { callQuote : Quote;
    callScenario : Scenario.t;
    callQty : float;
    callNow : float }.

(** The engine a call leaves behind, whether it returned or threw (the
    caller catches the error and goes on with the same engine). *)
Definition engineOf {A} (o : Outcome A) : Engine :=
  match o with Returned _ e | Thrown _ e => e end.

Definition returnedFill (o : Outcome (option Fill.t)) : option Fill.t :=
  match o with Returned r _ => r | Thrown _ _ => None end.

(** The operations of the engine's interface. *)
Inductive Op : Type :=
| OpSubmitQuote (c : Call)
| OpPnl (mark : float)
| OpDefaultQuote (estimate : float)
| OpBreakEven.

Section Runs.

Variable Math : MathImpl.

Definition submitCall (c : Call) : M (option Fill.t) :=
  submitQuote Math (callQuote c) (callScenario c) (callQty c) (callNow c).

(** The outcomes of a sequence of [submitQuote] calls, in order. *)
Fixpoint submitAll (calls : list Call) (e : Engine)
    : list (Outcome (option Fill.t)) :=
  match calls with
  | [] => []
  | c :: rest => let o := submitCall c e in o :: submitAll rest (engineOf o)
  end.

(** The engine after a sequence of [submitQuote] calls. *)
Fixpoint afterAll (calls : list Call) (e : Engine) : Engine :=
  match calls with
  | [] => e
  | c :: rest => afterAll rest (engineOf (submitCall c e))
  end.

(** The engine after one operation, and after a sequence of them. *)
Definition stepOp (op : Op) (e : Engine) : Engine :=
  match op with
  | OpSubmitQuote c => engineOf (submitCall c e)
  | OpPnl mark => engineOf (pnl mark e)
  | OpDefaultQuote estimate => engineOf (defaultQuote estimate e)
  | OpBreakEven => engineOf (breakEven e)
  end.

Definition runOps (ops : list Op) (e : Engine) : Engine :=
  fold_left (fun e op => stepOp op e) ops e.

End Runs.

(** The hard inventory limit: [|inv| <= inventoryLimit]. *)
Definition withinLimit (e : Engine) : bool :=
  JS.abs (inv (state e)) <=? inventoryLimit (settings e).

(** ** Results with the timestamps left out *)

(** A fill without its [ts], the reading of [Date.now()]. *)
Definition untimed (f : Fill.t) : Fill.t :=
  Fill.mk (Fill.side f) (Fill.price f) (Fill.qty f) (Fill.scenario f) (Fill.fair f) 0.

Definition untimedState (st : State) : State :=
  mkState (cash st) (inv st) (realized st) (lastMark st) (map untimed (fills st)).

Definition untimedEngine (e : Engine) : Engine :=
  mkEngine (rng e) (settings e) (untimedState (state e)).

Definition untimedOutcome (o : Outcome (option Fill.t)) : Outcome (option Fill.t) :=
  match o with
  | Returned r e => Returned (option_map untimed r) (untimedEngine e)
  | Thrown msg e => Thrown msg (untimedEngine e)
  end.

(** A call without the clock reading. *)
Definition untimedCall (c : Call) : Call :=
  mkCall (callQuote c) (callScenario c) (callQty c) 0.

(** Two engines that agree but for the [ts] of their fills; outcomes and
    computations that agree in that sense. *)
Definition agree (e1 e2 : Engine) : Prop := untimedEngine e1 = untimedEngine e2.

Definition agreeOutcome {A} (R : A -> A -> Prop) (o1 o2 : Outcome A) : Prop :=
  match o1, o2 with
  | Returned a e1, Returned b e2 => R a b /\ agree e1 e2
  | Thrown m1 e1, Thrown m2 e2 => m1 = m2 /\ agree e1 e2
  | _, _ => False
  end.

Definition agreeM {A} (R : A -> A -> Prop) (m1 m2 : M A) : Prop :=
  forall e1 e2, agree e1 e2 -> agreeOutcome R (m1 e1) (m2 e2).

Definition agreeFill (o1 o2 : option Fill.t) : Prop :=
  option_map untimed o1 = option_map untimed o2.

(** ** The generator, the damping factor and the ledger *)

(** The state of the [mulberry32] closure after one call. *)
Definition mulberry32_step (a : Z) : Z := snd (mulberry32_next a).

(** The generator after [n] more calls. *)
Definition advance (n : nat) (g : Rng) : Rng :=
  match g with
  | Mulberry a => Mulberry (Nat.iter n mulberry32_step a)
  | MathRandom src pos => MathRandom src (n + pos)
  end.

(** The local constant [damp] of [submitQuote] (lines 98-99). *)
Definition dampOf (e : Engine) : float :=
  let invPressure :=
    JS.abs (inv (state e)) / JS.max 1 (inventoryLimit (settings e)) in
  clamp (1 - 0.35 * invPressure) 0.35 1.

(** Cash and inventory replayed from a fill history, fill by fill. *)
Definition replayCash (start : float) (fs : list Fill.t) : float :=
  fold_left (fun c f => match Fill.side f with
                        | BUY => c - Fill.price f * Fill.qty f
                        | SELL => c + Fill.price f * Fill.qty f
                        end) fs start.

Definition replayInv (start : float) (fs : list Fill.t) : float :=
  fold_left (fun i f => match Fill.side f with
                        | BUY => i + Fill.qty f
                        | SELL => i - Fill.qty f
                        end) fs start.

(** The true value of the scenario of the last fill, if any. *)
Definition lastFillMark (fs : list Fill.t) : option float :=
  match rev fs with
  | [] => None
  | f :: _ => Some (Scenario.trueValue (Fill.scenario f))
  end.

(** The fills a sequence of outcomes returned, in order. *)
Definition returnedFills (os : list (Outcome (option Fill.t))) : list Fill.t :=
  flat_map (fun o => match returnedFill o with Some f => [f] | None => [] end) os.

(** The ledger is what its fill history makes it, from zero cash and zero
    inventory. *)
Definition ledgerConsistent (e : Engine) : Prop :=
  cash (state e) = replayCash 0 (fills (state e))
  /\ inv (state e) = replayInv 0 (fills (state e))
  /\ lastMark (state e) = lastFillMark (fills (state e)).

(** ** The draws of a call and what [submitQuote] computes from them *)

(** The number the generator returns at its [n + 1]-th call from now. *)
Definition drawValue (n : nat) (g : Rng) : float :=
  match g with
  | Mulberry a => fst (mulberry32_next (Nat.iter n mulberry32_step a))
  | MathRandom src pos => src (n + pos)%nat
  end.

(** The fair value [sampleFair] computes from the next two draws. *)
Definition fairOf (Math : MathImpl) (trueValue : float) (g : Rng) : float :=
  let u := drawValue 0 g in
  let sigma := 0.18 in
  let z := JS.sqrt (-2 * Math_log Math (JS.max 1e-12 u))
           * Math_cos Math (2 * JS.PI * drawValue 1 g) in
  let mult := Math_exp Math (sigma * z) in
  trueValue * mult.

(** The local constants [pBuy] and [pSell] of [submitQuote] (lines 89-95). *)
Definition pBuyOf (Math : MathImpl) (q : Quote) (sc : Scenario.t) (fair : float)
    : float :=
  let edgeBuy := fair - ask q in
  let scale := JS.max 1 (0.06 * Scenario.trueValue sc) in
  1 / (1 + Math_exp Math (- edgeBuy / scale)).

Definition pSellOf (Math : MathImpl) (q : Quote) (sc : Scenario.t) (fair : float)
    : float :=
  let edgeSell := bid q - fair in
  let scale := JS.max 1 (0.06 * Scenario.trueValue sc) in
  1 / (1 + Math_exp Math (- edgeSell / scale)).

(** The inventory limit admits a fill. *)
Definition admits (e : Engine) (f : Fill.t) : bool :=
  negb (inventoryLimit (settings e) <? JS.abs (inv (state e) + signedQty f)).

(** What becomes of a candidate fill [f] after [k] draws: rejected by the
    inventory limit, or applied to the ledger and returned. *)
Definition settle (e : Engine) (k : nat) (sc : Scenario.t) (f : Fill.t)
    : Outcome (option Fill.t) :=
  if admits e f then
    Returned (Some f)
      (mkEngine (advance k (rng e)) (settings e) (ledgerAfter (state e) f sc))
  else
    Returned None (mkEngine (advance k (rng e)) (settings e) (state e)).
(** ** Classes and order of binary64 values

    [FloatAxioms] specifies the primitive operations on [spec_float], the
    values of [SpecFloat]; these are the classes and the order used to read
    those specifications. *)

Module SF.

Definition SFfin (x : spec_float) : bool :=
  match x with
  | S754_zero _ | S754_finite _ _ _ => true
  | _ => false
  end.

Definition SFnan (x : spec_float) : bool :=
  match x with S754_nan => true | _ => false end.

(** Strictly positive: a positive finite number or +Infinity. *)
Definition SFpos (x : spec_float) : bool :=
  match x with
  | S754_finite false _ _ | S754_infinity false => true
  | _ => false
  end.

(** A number that is not NaN has a key in [Z * Z * Z]; the order of the
    numbers is the lexicographic order of their keys. *)
Definition key (x : spec_float) : Z * Z * Z :=
  match x with
  | S754_infinity true => (-2, 0, 0)
  | S754_finite true m e => (-1, - e, - Zpos m)
  | S754_zero _ | S754_nan => (0, 0, 0)
  | S754_finite false m e => (1, e, Zpos m)
  | S754_infinity false => (2, 0, 0)
  end%Z.

Definition lexlt (a b : Z * Z * Z) : Prop :=
  let '(a1, a2, a3) := a in
  let '(b1, b2, b3) := b in
  (a1 < b1 \/ (a1 = b1 /\ (a2 < b2 \/ (a2 = b2 /\ a3 < b3))))%Z.

Definition lexle (a b : Z * Z * Z) : Prop :=
  let '(a1, a2, a3) := a in
  let '(b1, b2, b3) := b in
  (a1 < b1 \/ (a1 = b1 /\ (a2 < b2 \/ (a2 = b2 /\ a3 <= b3))))%Z.

Definition SFzero (x : spec_float) : bool :=
  match x with S754_zero _ => true | _ => false end.

End SF.

(** ** A reference implementation of the Math functions *)

Module RefMath.

Definition ln2hi : float := 0x1.62e42feep-1.
Definition ln2lo : float := 0x1.a39ef35793c76p-33.
Definition invln2 : float := 0x1.71547652b82fep+0.
Definition pio2hi : float := 0x1.921fb544p+0.
Definition pio2lo : float := 0x1.0b4611a626331p-34.

(** The integer nearest to [x]. *)
Definition nearest (x : float) : Z :=
  JS.truncZ (x + (if x <? 0 then -0.5 else 0.5)).

(** [acc + term*r/i + term*r^2/(i*(i+1)) + ...], [n] terms. *)
Fixpoint powerSeries (n : nat) (i term acc r : float) : float :=
  match n with
  | O => acc
  | S n' => let term' := term * r / i in
            powerSeries n' (i + 1) term' (acc + term') r
  end.

Definition exp (x : float) : float :=
  if is_nan x then nan
  else if 709.782712893384 <? x then infinity
  else if x <? -745.2 then 0
  else
    let k := nearest (x * invln2) in
    let r := (x - JS.ofZ k * ln2hi) - JS.ofZ k * ln2lo in
    Z.ldexp (powerSeries 20 1 1 1 r) k.

(** [s + s^3/3 + s^5/5 + ...], [n] terms after the first. *)
Fixpoint atanhSeries (n : nat) (i pow acc s2 : float) : float :=
  match n with
  | O => acc
  | S n' => let pow' := pow * s2 in
            atanhSeries n' (i + 2) pow' (acc + pow' / i) s2
  end.

Definition log (x : float) : float :=
  if is_nan x then nan
  else if x <? 0 then nan
  else if x =? 0 then neg_infinity
  else if x =? infinity then infinity
  else
    let '(m, e) := Z.frexp x in
    let '(m, e) := if m <? 0x1.6a09e667f3bcdp-1 then (m * 2, (e - 1)%Z) else (m, e) in
    let s := (m - 1) / (m + 1) in
    JS.ofZ e * ln2hi + (JS.ofZ e * ln2lo + 2 * atanhSeries 12 3 s s (s * s)).

(** [1 - r^2/2! + r^4/4! - ...] and [r - r^3/3! + ...]. *)
Fixpoint trigSeries (n : nat) (i term acc r2 : float) : float :=
  match n with
  | O => acc
  | S n' => let term' := - term * r2 / (i * (i + 1)) in
            trigSeries n' (i + 2) term' (acc + term') r2
  end.

Definition cos (x : float) : float :=
  if negb (is_finite x) then nan
  else
    let k := nearest (x / (pio2hi + pio2lo)) in
    let r := (x - JS.ofZ k * pio2hi) - JS.ofZ k * pio2lo in
    let c := trigSeries 12 1 1 1 (r * r) in
    let s := trigSeries 12 2 r r (r * r) in
    match (k mod 4)%Z with
    | 0%Z => c
    | 1%Z => - s
    | 2%Z => - c
    | _ => s
    end.

Definition impl : MathImpl := mkMath log cos exp.

End RefMath.


(** ** Data for closed examples *)

Module Examples.

(** The settings the application starts with (main.ts), seeded with 1. *)
Definition defaults : Settings :=
  mkSettings 600 predefined 10 0.05 10 1.0 0.35 0.6 (Some 1).

(** A scenario of the catalogue (scenarios.ts). *)
Definition dow : Scenario.t :=
  Scenario.mk "dow-members"
    "How many companies are in the Dow Jones Industrial Average?"
    "companies" 30 (Some 5) (Some 100) (Some "Small index."%string)
    (Some ["facts"; "markets"]%string).

(** [Math.random] is not consulted by a seeded engine. *)
Definition noRandom : nat -> float := fun _ => 0.

(** A fresh engine with the default settings. *)
Definition fresh : Engine := construct noRandom defaults.

(** A quote around 45 on [dow], whose customers value it near 30: the
    customer sells, the maker buys at the bid. *)
Definition high : Quote := mkQuote 44 46.

(** A quote around the true value. *)
Definition around : Quote := mkQuote 29 31.

(** The default settings with the inventory skew raised to 2 and no
    widening. *)
Definition skewed : Settings :=
  mkSettings 600 predefined 10 0.05 10 1.0 2 0 (Some 1).

End Examples.
(** * Facts about binary64 arithmetic

    The primitive operations are specified by [FloatAxioms] through
    [Prim2SF]; the facts below are read off [SpecFloat]'s definitions. *)

Module FloatFacts.
Import SF.

Lemma is_nan_SF x : is_nan x = SFnan (Prim2SF x).
Proof.
  unfold is_nan. rewrite eqb_spec. unfold SFeqb.
  destruct (Prim2SF x) as [s|s| |s m e]; simpl; try reflexivity.
  - destruct s; reflexivity.
  - destruct s; rewrite Z.compare_refl, Pos.compare_cont_refl; reflexivity.
Qed.

Lemma is_finite_SF x : is_finite x = SFfin (Prim2SF x).
Proof.
  unfold is_finite, is_infinity. rewrite is_nan_SF, eqb_spec, abs_spec.
  change (Prim2SF infinity) with (S754_infinity false).
  destruct (Prim2SF x) as [s|s| |s m e]; reflexivity.
Qed.

Lemma ltb_zero_SF x : (0 <? x) = SFpos (Prim2SF x).
Proof.
  rewrite ltb_spec. change (Prim2SF 0) with (S754_zero false).
  destruct (Prim2SF x) as [s|s| |s m e]; try destruct s; reflexivity.
Qed.

(** *** Rounding never yields NaN *)

Lemma shr_1_nonneg mrs : (0 <= shr_m mrs)%Z -> (0 <= shr_m (shr_1 mrs))%Z.
Proof.
  destruct mrs as [m r s]; simpl.
  destruct m as [|p|p]; [ | destruct p | ]; simpl; lia.
Qed.

Lemma iter_shr_1_nonneg p : forall mrs,
  (0 <= shr_m mrs)%Z -> (0 <= shr_m (iter_pos shr_1 p mrs))%Z.
Proof.
  induction p as [p IH|p IH|]; intros mrs H; simpl.
  - apply IH, IH, shr_1_nonneg, H.
  - apply IH, IH, H.
  - apply shr_1_nonneg, H.
Qed.

Lemma shr_fexp_nonneg prec emax m e l :
  (0 <= m)%Z -> (0 <= shr_m (fst (shr_fexp prec emax m e l)))%Z.
Proof.
  intro H. unfold shr_fexp, shr.
  assert (H0 : (0 <= shr_m (shr_record_of_loc m l))%Z)
    by (destruct l as [|[]]; exact H).
  destruct (fexp prec emax (Zdigits2 m + e) - e)%Z; simpl;
    auto using iter_shr_1_nonneg.
Qed.

Lemma round_nearest_even_nonneg m l :
  (0 <= m)%Z -> (0 <= round_nearest_even m l)%Z.
Proof.
  intro H. destruct l as [|[]]; simpl; try lia.
  destruct (Z.even m); lia.
Qed.

Lemma binary_round_aux_not_nan prec emax sx mx ex lx :
  (0 <= mx)%Z -> SFnan (binary_round_aux prec emax sx mx ex lx) = false.
Proof.
  intro H. unfold binary_round_aux.
  pose proof (shr_fexp_nonneg prec emax mx ex lx H) as H1.
  destruct (shr_fexp prec emax mx ex lx) as [mrs' e']. simpl in H1.
  pose proof (shr_fexp_nonneg prec emax _ e' loc_Exact
                (round_nearest_even_nonneg _ (loc_of_shr_record mrs') H1)) as H2.
  destruct (shr_fexp prec emax
              (round_nearest_even (shr_m mrs') (loc_of_shr_record mrs')) e' loc_Exact)
    as [mrs'' e'']. simpl in H2.
  destruct (shr_m mrs'') as [|p|p]; try reflexivity.
  - destruct (e'' <=? emax - prec)%Z; reflexivity.
  - lia.
Qed.

Lemma binary_normalize_not_nan prec emax m e sz :
  SFnan (binary_normalize prec emax m e sz) = false.
Proof.
  destruct m as [|p|p]; simpl; try reflexivity;
    unfold binary_round;
    destruct (shl_align p e (fexp prec emax (Z.pos (digits2_pos p) + e)));
    apply binary_round_aux_not_nan; lia.
Qed.


Lemma SFsub_add_opp prec emax a b :
  SFsub prec emax a b = SFadd prec emax a (SFopp b).
Proof.
  destruct a as [sa|sa| |sa ma ea], b as [sb|sb| |sb mb eb];
    try destruct sa; try destruct sb; try reflexivity;
    simpl; f_equal.
Qed.

Lemma sub_add_opp x y : x - y = x + (- y).
Proof.
  apply Prim2SF_inj. rewrite sub_spec, add_spec, opp_spec.
  apply SFsub_add_opp.
Qed.

Lemma SFcompare_swap a b :
  SFcompare b a = option_map CompOpp (SFcompare a b).
Proof.
  destruct a as [sa|sa| |sa ma ea], b as [sb|sb| |sb mb eb];
    try destruct sa; try destruct sb; try reflexivity; simpl;
    rewrite (Z.compare_antisym ea eb);
    destruct (ea ?= eb)%Z; simpl; try reflexivity;
    rewrite (Pos.compare_cont_antisym ma mb Eq); reflexivity.
Qed.

Lemma SFadd_not_nan prec emax a b :
  SFfin a = true -> SFpos b = true ->
  SFnan (SFadd prec emax a b) = false.
Proof.
  destruct a as [sa|sa| |sa ma ea], b as [sb|sb| |sb mb eb];
    try destruct sa; try destruct sb; try discriminate; intros _ _;
    try reflexivity; apply binary_normalize_not_nan.
Qed.

Lemma SFsub_not_nan prec emax a b :
  SFfin a = true -> SFpos b = true ->
  SFnan (SFsub prec emax a b) = false.
Proof.
  destruct a as [sa|sa| |sa ma ea], b as [sb|sb| |sb mb eb];
    try destruct sa; try destruct sb; try discriminate; intros _ _;
    try reflexivity; apply binary_normalize_not_nan.
Qed.

(** *** The same facts on primitive floats *)

Lemma leb_not_nan x y : (x <=? y) = true -> is_nan x = false /\ is_nan y = false.
Proof.
  rewrite leb_spec, !is_nan_SF. unfold SFleb.
  destruct (Prim2SF x) as [sa|sa| |sa ma ea], (Prim2SF y) as [sb|sb| |sb mb eb];
    simpl; intro H; try discriminate; split; reflexivity.
Qed.

Lemma abs_not_nan x : is_nan (abs x) = is_nan x.
Proof. rewrite !is_nan_SF, abs_spec. destruct (Prim2SF x); reflexivity. Qed.

(** Between two numbers, "not greater" is "less or equal". *)
Lemma leb_of_not_ltb x y :
  is_nan x = false -> is_nan y = false -> (y <? x) = false -> (x <=? y) = true.
Proof.
  rewrite !is_nan_SF, ltb_spec, leb_spec. unfold SFltb, SFleb.
  rewrite (SFcompare_swap (Prim2SF x) (Prim2SF y)).
  destruct (Prim2SF x) as [sa|sa| |sa ma ea], (Prim2SF y) as [sb|sb| |sb mb eb];
    try discriminate; intros _ _;
    match goal with |- context [SFcompare ?a ?b] => destruct (SFcompare a b) as [[]|] eqn:E end;
    simpl; try reflexivity; try discriminate;
    simpl in E; repeat match type of E with context [if ?c then _ else _] => destruct c end;
    discriminate.
Qed.

Lemma leb_negb_ltb x y :
  is_nan x = false -> is_nan y = false -> (x <=? y) = negb (y <? x).
Proof.
  intros Hx Hy. destruct (y <? x) eqn:E; simpl.
  - revert E. rewrite ltb_spec, leb_spec. unfold SFltb, SFleb.
    rewrite (SFcompare_swap (Prim2SF x) (Prim2SF y)).
    destruct (SFcompare (Prim2SF x) (Prim2SF y)) as [[]|]; simpl;
      intro; try discriminate; reflexivity.
  - apply leb_of_not_ltb; assumption.
Qed.

Lemma ltb_not_ltb x y : (x <? y) = true -> (y <? x) = false.
Proof.
  rewrite !ltb_spec. unfold SFltb.
  rewrite (SFcompare_swap (Prim2SF x) (Prim2SF y)).
  destruct (SFcompare (Prim2SF x) (Prim2SF y)) as [[]|]; simpl;
    intro; try discriminate; reflexivity.
Qed.

Lemma finite_of_abs_leb x L :
  (abs x <=? L) = true -> is_finite L = true -> is_finite x = true.
Proof.
  rewrite leb_spec, !is_finite_SF, abs_spec. unfold SFleb.
  destruct (Prim2SF x) as [sa|sa| |sa ma ea], (Prim2SF L) as [sb|sb| |sb mb eb];
    try destruct sb; simpl; intros H1 H2; try discriminate; reflexivity.
Qed.

Lemma add_pos_not_nan x q :
  is_finite x = true -> (0 <? q) = true -> is_nan (x + q) = false.
Proof.
  rewrite is_finite_SF, ltb_zero_SF, is_nan_SF, add_spec. apply SFadd_not_nan.
Qed.

Lemma sub_pos_not_nan x q :
  is_finite x = true -> (0 <? q) = true -> is_nan (x - q) = false.
Proof.
  rewrite is_finite_SF, ltb_zero_SF, is_nan_SF, sub_spec. apply SFsub_not_nan.
Qed.

Lemma finite_not_nan x : is_finite x = true -> is_nan x = false.
Proof. rewrite is_finite_SF, is_nan_SF. destruct (Prim2SF x); easy. Qed.

(** *** The order of the numbers

    Comparing two numbers is comparing their keys lexicographically. *)

Ltac order_cases :=
  repeat match goal with
         | |- context [(?a ?= ?b)%Z] => destruct (Z.compare_spec a b)
         | |- context [Pos.compare_cont Eq ?a ?b] =>
             change (Pos.compare_cont Eq a b) with (Pos.compare a b);
             destruct (Pos.compare_spec a b)
         end.

Lemma SFltb_key a b :
  SFnan a = false -> SFnan b = false ->
  (SFltb a b = true <-> lexlt (key a) (key b)).
Proof.
  unfold SFltb, lexlt.
  destruct a as [sa|sa| |sa ma ea], b as [sb|sb| |sb mb eb];
    try discriminate; intros _ _;
    try destruct sa; try destruct sb; simpl;
    order_cases; simpl; split; intro; try discriminate; try reflexivity; lia.
Qed.

Lemma SFleb_key a b :
  SFnan a = false -> SFnan b = false ->
  (SFleb a b = true <-> lexle (key a) (key b)).
Proof.
  unfold SFleb, lexle.
  destruct a as [sa|sa| |sa ma ea], b as [sb|sb| |sb mb eb];
    try discriminate; intros _ _;
    try destruct sa; try destruct sb; simpl;
    order_cases; simpl; split; intro; try discriminate; try reflexivity; lia.
Qed.

Lemma ltb_not_nan x y : (x <? y) = true -> is_nan x = false /\ is_nan y = false.
Proof.
  rewrite ltb_spec, !is_nan_SF. unfold SFltb.
  destruct (Prim2SF x) as [sa|sa| |sa ma ea], (Prim2SF y) as [sb|sb| |sb mb eb];
    simpl; intro H; try discriminate; split; reflexivity.
Qed.

Lemma ltb_nan_l x : (nan <? x) = false.
Proof. rewrite ltb_spec. reflexivity. Qed.

Lemma ltb_trans x y z : (x <? y) = true -> (y <? z) = true -> (x <? z) = true.
Proof.
  intros H1 H2.
  destruct (ltb_not_nan _ _ H1) as [Nx Ny], (ltb_not_nan _ _ H2) as [_ Nz].
  revert H1 H2. rewrite is_nan_SF in Nx, Ny, Nz. rewrite !ltb_spec.
  rewrite !SFltb_key by assumption. unfold lexlt.
  destruct (key (Prim2SF x)) as [[? ?] ?], (key (Prim2SF y)) as [[? ?] ?],
           (key (Prim2SF z)) as [[? ?] ?]. lia.
Qed.

Lemma leb_ltb_trans x y z : (x <=? y) = true -> (y <? z) = true -> (x <? z) = true.
Proof.
  intros H1 H2.
  destruct (leb_not_nan _ _ H1) as [Nx Ny], (ltb_not_nan _ _ H2) as [_ Nz].
  revert H1 H2. rewrite is_nan_SF in Nx, Ny, Nz. rewrite !ltb_spec, leb_spec.
  rewrite !SFltb_key, SFleb_key by assumption. unfold lexlt, lexle.
  destruct (key (Prim2SF x)) as [[? ?] ?], (key (Prim2SF y)) as [[? ?] ?],
           (key (Prim2SF z)) as [[? ?] ?]. lia.
Qed.

(** *** Zeros *)

Lemma is_zero_SF x : is_zero x = SFzero (Prim2SF x).
Proof.
  unfold is_zero. rewrite eqb_spec. change (Prim2SF zero) with (S754_zero false).
  destruct (Prim2SF x) as [s|s| |s m e]; try destruct s; reflexivity.
Qed.

Lemma mul_zero_l x y :
  is_zero x = true -> is_finite y = true -> is_zero (x * y) = true.
Proof.
  rewrite !is_zero_SF, is_finite_SF, mul_spec.
  destruct (Prim2SF x), (Prim2SF y); try discriminate; reflexivity.
Qed.

Lemma mul_zero_r x y :
  is_finite x = true -> is_zero y = true -> is_zero (x * y) = true.
Proof.
  rewrite !is_zero_SF, is_finite_SF, mul_spec.
  destruct (Prim2SF x), (Prim2SF y); try discriminate; reflexivity.
Qed.

Lemma zero_finite x : is_zero x = true -> is_finite x = true.
Proof. rewrite is_zero_SF, is_finite_SF. destruct (Prim2SF x); easy. Qed.

Lemma zero_add_zero y : is_zero y = true -> 0 + y = 0.
Proof.
  rewrite is_zero_SF. intro H. apply Prim2SF_inj. rewrite add_spec.
  change (Prim2SF 0) with (S754_zero false).
  destruct (Prim2SF y) as [s|s| |s m e]; try discriminate. destruct s; reflexivity.
Qed.

Lemma zero_sub_zero y : is_zero y = true -> 0 - y = 0.
Proof.
  rewrite is_zero_SF. intro H. apply Prim2SF_inj. rewrite sub_spec.
  change (Prim2SF 0) with (S754_zero false).
  destruct (Prim2SF y) as [s|s| |s m e]; try discriminate. destruct s; reflexivity.
Qed.

(** *** [Math.max] against a positive floor *)

Lemma max_nan_r c x : is_nan x = true -> JS.max c x = nan.
Proof. intro H. unfold JS.max. rewrite H, orb_true_r. reflexivity. Qed.

Lemma max_floor c x :
  is_nan c = false -> is_zero c = false -> is_nan x = false ->
  JS.max c x = if c <? x then x else c.
Proof.
  intros Hc Hz Hx. unfold JS.max. rewrite Hc, Hx, Hz. simpl.
  destruct (c <? x); [reflexivity|]. destruct (x <? c); reflexivity.
Qed.

(** *** More on the order *)

Lemma leb_refl x : is_nan x = false -> (x <=? x) = true.
Proof.
  intro H. apply leb_of_not_ltb; try assumption.
  destruct (x <? x) eqn:E; [|reflexivity].
  rewrite (ltb_not_ltb _ _ E) in E. discriminate.
Qed.

Lemma ltb_leb x y : (x <? y) = true -> (x <=? y) = true.
Proof.
  intro H. destruct (ltb_not_nan _ _ H) as [Nx Ny].
  apply leb_of_not_ltb; try assumption. apply ltb_not_ltb, H.
Qed.

Lemma leb_trans x y z : (x <=? y) = true -> (y <=? z) = true -> (x <=? z) = true.
Proof.
  intros H1 H2.
  destruct (leb_not_nan _ _ H1) as [Nx Ny], (leb_not_nan _ _ H2) as [_ Nz].
  revert H1 H2. rewrite is_nan_SF in Nx, Ny, Nz. rewrite !leb_spec.
  rewrite !SFleb_key by assumption. unfold lexle.
  destruct (key (Prim2SF x)) as [[? ?] ?], (key (Prim2SF y)) as [[? ?] ?],
           (key (Prim2SF z)) as [[? ?] ?]. lia.
Qed.

Lemma ltb_leb_trans x y z : (x <? y) = true -> (y <=? z) = true -> (x <? z) = true.
Proof.
  intros H1 H2.
  destruct (ltb_not_nan _ _ H1) as [Nx Ny], (leb_not_nan _ _ H2) as [_ Nz].
  revert H1 H2. rewrite is_nan_SF in Nx, Ny, Nz. rewrite !ltb_spec, leb_spec.
  rewrite !SFltb_key, SFleb_key by assumption. unfold lexlt, lexle.
  destruct (key (Prim2SF x)) as [[? ?] ?], (key (Prim2SF y)) as [[? ?] ?],
           (key (Prim2SF z)) as [[? ?] ?]. lia.
Qed.

(** *** [Math.max] and [Math.min] of two numbers *)

Lemma max_cases a b :
  is_nan a = false -> is_nan b = false ->
  (JS.max a b = a \/ JS.max a b = b)
  /\ (a <=? JS.max a b) = true /\ (b <=? JS.max a b) = true.
Proof.
  intros Na Nb. unfold JS.max. rewrite Na, Nb. simpl.
  destruct (a <? b) eqn:E1.
  - split; [auto|]. split; [apply ltb_leb, E1 | apply leb_refl, Nb].
  - destruct (b <? a) eqn:E2.
    + split; [auto|]. split; [apply leb_refl, Na | apply ltb_leb, E2].
    + assert (Hab : (a <=? b) = true) by (apply leb_of_not_ltb; assumption).
      assert (Hba : (b <=? a) = true) by (apply leb_of_not_ltb; assumption).
      destruct (is_zero a && get_sign a);
        (split; [auto|]); split; auto using leb_refl.
Qed.

Lemma min_cases a b :
  is_nan a = false -> is_nan b = false ->
  (JS.min a b = a \/ JS.min a b = b)
  /\ (JS.min a b <=? a) = true /\ (JS.min a b <=? b) = true.
Proof.
  intros Na Nb. unfold JS.min. rewrite Na, Nb. simpl.
  destruct (a <? b) eqn:E1.
  - split; [auto|]. split; [apply leb_refl, Na | apply ltb_leb, E1].
  - destruct (b <? a) eqn:E2.
    + split; [auto|]. split; [apply ltb_leb, E2 | apply leb_refl, Nb].
    + assert (Hab : (a <=? b) = true) by (apply leb_of_not_ltb; assumption).
      assert (Hba : (b <=? a) = true) by (apply leb_of_not_ltb; assumption).
      destruct (is_zero a && get_sign a);
        (split; [auto|]); split; auto using leb_refl.
Qed.

Lemma max_nan a b : is_nan a || is_nan b = true -> JS.max a b = nan.
Proof. intro H. unfold JS.max. rewrite H. reflexivity. Qed.

Lemma min_nan a b : is_nan a || is_nan b = true -> JS.min a b = nan.
Proof. intro H. unfold JS.min. rewrite H. reflexivity. Qed.

(** *** Operations that cannot yield NaN *)

Lemma SFdiv_not_nan prec emax a b :
  SFfin a = true -> SFpos b = true -> SFnan (SFdiv prec emax a b) = false.
Proof.
  destruct a as [sa|sa| |sa ma ea], b as [sb|sb| |sb mb eb];
    try destruct sb; try discriminate; intros _ _; try reflexivity.
  unfold SFdiv, SFdiv_core_binary.
  set (d := Z.min _ _).
  set (m' := match (ea - eb - d)%Z with
             | Z0 => Zpos ma | Zpos _ => Z.shiftl (Zpos ma) (ea - eb - d) | Zneg _ => Z0
             end).
  assert (Hm : (0 <= m')%Z).
  { unfold m'. destruct (ea - eb - d)%Z; try lia. apply Z.shiftl_nonneg. lia. }
  pose proof (Z_div_mod m' (Zpos mb) ltac:(lia)) as Hd.
  destruct (Z.div_eucl m' (Zpos mb)) as [q r].
  apply binary_round_aux_not_nan. nia.
Qed.

Lemma SFmul_not_nan prec emax a b :
  SFfin a = true -> SFzero a = false -> SFnan b = false ->
  SFnan (SFmul prec emax a b) = false.
Proof.
  destruct a as [sa|sa| |sa ma ea], b as [sb|sb| |sb mb eb];
    try discriminate; intros _ _ _; try reflexivity.
  apply binary_round_aux_not_nan. lia.
Qed.

Lemma SFsub_fin_not_nan prec emax a b :
  SFfin a = true -> SFnan b = false -> SFnan (SFsub prec emax a b) = false.
Proof.
  destruct a as [sa|sa| |sa ma ea], b as [sb|sb| |sb mb eb];
    try discriminate; intros _ _; try reflexivity;
    try (destruct sa, sb; reflexivity).
  apply binary_normalize_not_nan.
Qed.

Lemma abs_finite x : is_finite (abs x) = is_finite x.
Proof. rewrite !is_finite_SF, abs_spec. destruct (Prim2SF x); reflexivity. Qed.

Lemma div_pos_not_nan x y :
  is_finite x = true -> (0 <? y) = true -> is_nan (x / y) = false.
Proof.
  rewrite is_finite_SF, ltb_zero_SF, is_nan_SF, div_spec. apply SFdiv_not_nan.
Qed.

Lemma mul_not_nan x y :
  is_finite x = true -> is_zero x = false -> is_nan y = false ->
  is_nan (x * y) = false.
Proof.
  rewrite is_finite_SF, is_zero_SF, !is_nan_SF, mul_spec. apply SFmul_not_nan.
Qed.

Lemma sub_fin_not_nan x y :
  is_finite x = true -> is_nan y = false -> is_nan (x - y) = false.
Proof.
  rewrite is_finite_SF, !is_nan_SF, sub_spec. apply SFsub_fin_not_nan.
Qed.

(** *** Arithmetic with zeros *)

Lemma div_zero_l x y :
  is_zero x = true -> (0 <? y) = true -> is_zero (x / y) = true.
Proof.
  rewrite !is_zero_SF, ltb_zero_SF, div_spec.
  destruct (Prim2SF x) as [sa|sa| |sa ma ea], (Prim2SF y) as [sb|sb| |sb mb eb];
    try destruct sb; try discriminate; reflexivity.
Qed.

Lemma add_zero_r x z : (0 <? x) = true -> is_zero z = true -> x + z = x.
Proof.
  rewrite ltb_zero_SF, is_zero_SF. intros Hx Hz. apply Prim2SF_inj.
  rewrite add_spec.
  destruct (Prim2SF x) as [sa|sa| |sa ma ea], (Prim2SF z) as [sb|sb| |sb mb eb];
    try destruct sa; try discriminate; reflexivity.
Qed.

Lemma opp_finite x : is_finite (- x) = is_finite x.
Proof. rewrite !is_finite_SF, opp_spec. destruct (Prim2SF x); reflexivity. Qed.

Lemma zero_not_nan x : is_zero x = true -> is_nan x = false.
Proof. rewrite is_zero_SF, is_nan_SF. destruct (Prim2SF x); easy. Qed.

Lemma zero_between x : is_zero x = true -> (-1 <? x) = true /\ (x <? 1) = true.
Proof.
  rewrite is_zero_SF, !ltb_spec.
  destruct (Prim2SF x) as [s|s| |s m e]; try discriminate. intros _.
  split; reflexivity.
Qed.

Lemma SFeqb_refl x : SFnan x = false -> SFeqb x x = true.
Proof.
  unfold SFeqb. destruct x as [s|s| |s m e]; try discriminate; intros _;
    try destruct s; simpl; try reflexivity;
    rewrite Z.compare_refl, Pos.compare_cont_refl; reflexivity.
Qed.

(** Adding and then subtracting zeros leaves a number numerically as it
    was. *)
Lemma add_sub_zeros x z1 z2 :
  is_nan x = false -> is_zero z1 = true -> is_zero z2 = true ->
  (x + z1 =? x) = true /\ (x + z1 - z2 =? x) = true.
Proof.
  rewrite is_nan_SF, !is_zero_SF, !eqb_spec, sub_spec, add_spec.
  destruct (Prim2SF x) as [sa|sa| |sa ma ea] eqn:Ex,
           (Prim2SF z1) as [s1|s1| |s1 m1 e1], (Prim2SF z2) as [s2|s2| |s2 m2 e2];
    try discriminate; intros _ _ _.
  - destruct sa, s1, s2; split; reflexivity.
  - destruct sa; split; reflexivity.
  - cbn [FloatAxioms.SF64add FloatAxioms.SF64sub SFadd SFsub].
    split; apply SFeqb_refl; reflexivity.
Qed.

End FloatFacts.
(** * The engine's operations, case by case *)

Lemma callRng_returns e :
  exists x e', callRng e = Returned x e'
               /\ settings e' = settings e /\ state e' = state e.
Proof.
  unfold callRng. destruct (rng e) as [a|src pos].
  - destruct (mulberry32_next a) as [x a']. eauto.
  - eauto.
Qed.

Lemma quoteSanity_cases q e :
  (failsSanity q = false /\ quoteSanity q e = Returned tt e)
  \/ (failsSanity q = true
      /\ exists msg, In msg sanityErrors /\ quoteSanity q e = Thrown msg e).
Proof.
  unfold quoteSanity, failsSanity, sanityErrors.
  destruct (negb (JS.isFinite (bid q)) || negb (JS.isFinite (ask q))); simpl.
  - right. split; [reflexivity | eexists; split; [|reflexivity]; simpl; auto].
  - destruct ((bid q <=? 0) || (ask q <=? 0)); simpl.
    + right. split; [reflexivity | eexists; split; [|reflexivity]; simpl; auto].
    + destruct (ask q <=? bid q).
      * right. split; [reflexivity | eexists; split; [|reflexivity]; simpl; auto].
      * left. split; reflexivity.
Qed.

Section EngineFacts.

Variable Math : MathImpl.

Lemma sampleFair_returns tv e :
  exists x e', sampleFair Math tv e = Returned x e'
               /\ settings e' = settings e /\ state e' = state e.
Proof.
  unfold sampleFair, bind, ret.
  destruct (callRng_returns e) as (u & e1 & -> & S1 & T1).
  destruct (callRng_returns e1) as (v & e2 & -> & S2 & T2).
  do 2 eexists. split; [reflexivity | split; congruence].
Qed.

Lemma randomFlow_returns q sc qty fair now damp o e :
  exists r e', randomFlow q sc qty fair now damp o e = Returned r e'
    /\ settings e' = settings e /\ state e' = state e
    /\ (r = None
        \/ (o = None /\ r = Some (Fill.mk BUY (bid q) qty sc fair now))
        \/ (o = None /\ r = Some (Fill.mk SELL (ask q) qty sc fair now))
        \/ (o <> None /\ r = o)).
Proof.
  unfold randomFlow, bind, ret. destruct o as [f|].
  - do 2 eexists. repeat split. right; right; right. split; [discriminate|reflexivity].
  - destruct (callRng_returns e) as (flow & e1 & -> & S1 & T1).
    destruct (flow <? 0.06 * damp).
    + destruct (callRng_returns e1) as (s & e2 & -> & S2 & T2).
      do 2 eexists. split; [reflexivity|]. split; [congruence|]. split; [congruence|].
      destruct (s <? 0.5); auto.
    + do 2 eexists. split; [reflexivity|]. auto.
Qed.

Lemma directional_cases q sc qty fair now pBuy pSell damp r :
  directional q sc qty fair now pBuy pSell damp r = None
  \/ directional q sc qty fair now pBuy pSell damp r
     = Some (Fill.mk SELL (ask q) qty sc fair now)
  \/ directional q sc qty fair now pBuy pSell damp r
     = Some (Fill.mk BUY (bid q) qty sc fair now).
Proof.
  unfold directional.
  destruct ((0.60 <? pBuy * damp) && (r <? pBuy * damp)); auto.
  destruct ((0.60 <? pSell * damp) && (r <? pSell * damp)); auto.
Qed.

Lemma submitQuote_result q sc qty now e :
  SubmitResult q sc qty now e (submitQuote Math q sc qty now e).
Proof.
  unfold submitQuote. unfold bind at 1.
  destruct (quoteSanity_cases q e) as [[Hs ->] | [Hs [msg [Hm ->]]]];
    [ | apply SR_throw; assumption ].
  unfold bind at 1.
  destruct (sampleFair_returns (Scenario.trueValue sc) e) as (fair & e1 & -> & S1 & T1).
  unfold bind at 1, getState at 1. unfold bind at 1, getSettings at 1.
  unfold bind at 1.
  destruct (callRng_returns e1) as (r & e2 & -> & S2 & T2).
  unfold bind at 1.
  match goal with |- context [randomFlow ?a ?b ?c ?d ?g ?h ?o e2] =>
    destruct (randomFlow_returns a b c d g h o e2) as (res & e3 & -> & S3 & T3 & Hres);
    pose proof (directional_cases a b c d g
                  (1 / (1 + Math_exp Math (- (d - ask a) / JS.max 1 (0.06 * Scenario.trueValue b))))
                  (1 / (1 + Math_exp Math (- (bid a - d) / JS.max 1 (0.06 * Scenario.trueValue b))))
                  h r) as Hdir
  end.
  assert (Hf : res = None
               \/ res = Some (Fill.mk BUY (bid q) qty sc fair now)
               \/ res = Some (Fill.mk SELL (ask q) qty sc fair now)).
  { destruct Hres as [H | [[_ H] | [[_ H] | [Hn H]]]]; auto.
    rewrite H. destruct Hdir as [D | [D | D]]; rewrite D in *; auto. }
  clear Hres Hdir.
  assert (Se : settings e3 = settings e) by congruence.
  assert (Te : state e3 = state e) by congruence.
  destruct Hf as [-> | [-> | ->]].
  - apply SR_none; auto.
  - unfold ret, bind, getState, applyFill, setState; simpl.
    rewrite ?S1, ?T1, ?Te, ?Se.
    destruct (inventoryLimit (settings e) <? JS.abs (inv (state e) + qty)) eqn:Hc.
    + apply SR_none; auto.
    + apply SR_fill; simpl; auto. unfold ledgerAfter; simpl. rewrite Te. reflexivity.
  - unfold ret, bind, getState, applyFill, setState; simpl.
    rewrite ?S1, ?T1, ?Te, ?Se.
    destruct (inventoryLimit (settings e) <? JS.abs (inv (state e) + - qty)) eqn:Hc.
    + apply SR_none; auto.
    + apply SR_fill; simpl; auto. unfold ledgerAfter; simpl. rewrite Te. reflexivity.
Qed.

End EngineFacts.


(** ** Quotes *)

Lemma validQuote_failsSanity q : failsSanity q = negb (validQuote q).
Proof.
  unfold failsSanity, validQuote, JS.isFinite.
  destruct (is_finite (bid q)) eqn:Fb; simpl; [|reflexivity].
  destruct (is_finite (ask q)) eqn:Fa; simpl; [|reflexivity].
  pose proof (FloatFacts.finite_not_nan _ Fb) as Nb.
  pose proof (FloatFacts.finite_not_nan _ Fa) as Na.
  assert (N0 : is_nan 0 = false) by reflexivity.
  rewrite (FloatFacts.leb_negb_ltb _ _ Nb N0), (FloatFacts.leb_negb_ltb _ _ Na N0),
          (FloatFacts.leb_negb_ltb _ _ Na Nb).
  destruct (0 <? bid q), (0 <? ask q), (bid q <? ask q); reflexivity.
Qed.

(** ** The inventory limit is kept by every call *)

Section Invariant.

Variable Math : MathImpl.

Lemma submitQuote_withinLimit q sc qty now e :
  is_finite (inventoryLimit (settings e)) = true ->
  (0 <? qty) = true ->
  withinLimit e = true ->
  withinLimit (engineOf (submitQuote Math q sc qty now e)) = true.
Proof.
  intros HL Hq HI.
  destruct (submitQuote_result Math q sc qty now e)
    as [msg Hs Hm | e' Hs Se Te | f e' Hs Se Hqty Hsc Hts Hp Hc Te]; simpl.
  - exact HI.
  - unfold withinLimit in *. rewrite Se, Te. exact HI.
  - unfold withinLimit in *. rewrite Se, Te.
    pose proof (FloatFacts.finite_of_abs_leb _ _ HI HL) as Fi.
    assert (Hn : is_nan (inv (ledgerAfter (state e) f sc)) = false
                 /\ inv (ledgerAfter (state e) f sc) = inv (state e) + signedQty f).
    { unfold ledgerAfter, signedQty. destruct (Fill.side f); simpl; rewrite Hqty.
      - split; [apply FloatFacts.add_pos_not_nan; assumption | reflexivity].
      - split; [apply FloatFacts.sub_pos_not_nan; assumption
               | apply FloatFacts.sub_add_opp]. }
    destruct Hn as [Hn Heq].
    apply FloatFacts.leb_of_not_ltb.
    + unfold JS.abs. rewrite FloatFacts.abs_not_nan. exact Hn.
    + apply FloatFacts.finite_not_nan, HL.
    + rewrite Heq. exact Hc.
Qed.

Lemma submitQuote_settings q sc qty now e :
  settings (engineOf (submitQuote Math q sc qty now e)) = settings e.
Proof.
  destruct (submitQuote_result Math q sc qty now e); simpl; auto.
Qed.

Lemma submitQuote_valid_returns q sc qty now e :
  validQuote q = true ->
  exists r e', submitQuote Math q sc qty now e = Returned r e'.
Proof.
  intro Hv.
  destruct (submitQuote_result Math q sc qty now e) as [msg Hs Hm| |]; eauto.
  rewrite validQuote_failsSanity, Hv in Hs. discriminate.
Qed.

End Invariant.

(** ** The read-only operations *)

Lemma pnl_unfold mark e :
  pnl mark e
  = Returned (PnL.mk (cash (state e)) (inv (state e))
                (cash (state e) + inv (state e) * mark)
                (cash (state e) + inv (state e) * mark
                 - riskAversion (settings e) * JS.abs (inv (state e)) * 0.01 * mark))
             e.
Proof. reflexivity. Qed.

Lemma defaultQuote_bid_ask_shape estimate e :
  defaultQuote estimate e
  = Returned (mkQuote (JS.max 1e-6 (quoteMid e estimate - quoteHalf e estimate))
                      (quoteMid e estimate + quoteHalf e estimate)) e.
Proof. reflexivity. Qed.

Lemma defaultQuote_pure estimate e :
  exists q, defaultQuote estimate e = Returned q e.
Proof. eexists. reflexivity. Qed.

Lemma breakEven_pure e : exists r, breakEven e = Returned r e.
Proof.
  unfold breakEven, bind, getState, ret.
  destruct (inv (state e) =? 0); eexists; reflexivity.
Qed.

(** ** [realized] is never written *)

Lemma stepOp_realized Math op e :
  realized (state (stepOp Math op e)) = realized (state e).
Proof.
  destruct op as [c|mark|estimate|]; simpl.
  - unfold submitCall.
    destruct (submitQuote_result Math (callQuote c) (callScenario c)
                (callQty c) (callNow c) e)
      as [msg Hs Hm | e' Hs Se Te | f e' Hs Se Hqty Hsc Hts Hp Hc Te]; simpl;
      try congruence.
    rewrite Te. unfold ledgerAfter. destruct (Fill.side f); reflexivity.
  - reflexivity.
  - reflexivity.
  - destruct (breakEven_pure e) as [r ->]. reflexivity.
Qed.

(** ** The clock only shows in [ts]

    Two engines that agree but for the [ts] of their fills stay so under the
    same operations: the methods are related step by step. *)

Lemma agree_parts e1 e2 :
  agree e1 e2 ->
  rng e1 = rng e2 /\ settings e1 = settings e2
  /\ untimedState (state e1) = untimedState (state e2).
Proof.
  unfold agree. intro H.
  exact (conj (f_equal rng H) (conj (f_equal settings H) (f_equal state H))).
Qed.

Lemma agree_intro e1 e2 :
  rng e1 = rng e2 -> settings e1 = settings e2 ->
  untimedState (state e1) = untimedState (state e2) -> agree e1 e2.
Proof. unfold agree, untimedEngine. intros -> -> ->. reflexivity. Qed.

Lemma agree_ret {A} (R : A -> A -> Prop) a b : R a b -> agreeM R (ret a) (ret b).
Proof. intros H e1 e2 He. simpl. auto. Qed.

Lemma agree_bind {A B} (R : A -> A -> Prop) (S : B -> B -> Prop) m1 m2 k1 k2 :
  agreeM R m1 m2 ->
  (forall a b, R a b -> agreeM S (k1 a) (k2 b)) ->
  agreeM S (bind m1 k1) (bind m2 k2).
Proof.
  intros Hm Hk e1 e2 He. unfold bind. specialize (Hm e1 e2 He).
  destruct (m1 e1) as [a e1'|msg1 e1'], (m2 e2) as [b e2'|msg2 e2'];
    simpl in Hm; try contradiction; destruct Hm as [H1 H2].
  - apply Hk; assumption.
  - simpl. auto.
Qed.

Lemma agree_callRng : agreeM eq callRng callRng.
Proof.
  intros e1 e2 He. destruct (agree_parts _ _ He) as (Hg & Hs & Ht).
  unfold callRng. rewrite Hg. destruct (rng e2) as [a|src pos].
  - destruct (mulberry32_next a) as [x a']. split; [reflexivity|].
    apply agree_intro; cbn [rng settings state]; auto.
  - split; [reflexivity|]. apply agree_intro; cbn [rng settings state]; auto.
Qed.

Lemma agree_getState :
  agreeM (fun s1 s2 => untimedState s1 = untimedState s2) getState getState.
Proof.
  intros e1 e2 He. destruct (agree_parts _ _ He) as (Hg & Hs & Ht).
  split; assumption.
Qed.

Lemma agree_getSettings : agreeM eq getSettings getSettings.
Proof.
  intros e1 e2 He. destruct (agree_parts _ _ He) as (Hg & Hs & Ht).
  split; assumption.
Qed.

Lemma agree_setState s1 s2 :
  untimedState s1 = untimedState s2 -> agreeM eq (setState s1) (setState s2).
Proof.
  intros H e1 e2 He. destruct (agree_parts _ _ He) as (Hg & Hs & Ht).
  split; [reflexivity|]. apply agree_intro; cbn [rng settings state]; auto.
Qed.

Lemma agree_quoteSanity q : agreeM eq (quoteSanity q) (quoteSanity q).
Proof.
  intros e1 e2 He. unfold quoteSanity, throw, ret.
  repeat match goal with |- context [if ?c then _ else _] => destruct c end;
    simpl; auto.
Qed.

Lemma agree_sampleFair Math tv : agreeM eq (sampleFair Math tv) (sampleFair Math tv).
Proof.
  unfold sampleFair.
  apply (agree_bind eq eq); [apply agree_callRng|]. intros u ? <-.
  apply (agree_bind eq eq); [apply agree_callRng|]. intros v ? <-.
  apply agree_ret. reflexivity.
Qed.

Lemma agree_directional q sc qty fair now1 now2 pBuy pSell damp r :
  agreeFill (directional q sc qty fair now1 pBuy pSell damp r)
            (directional q sc qty fair now2 pBuy pSell damp r).
Proof.
  unfold directional, agreeFill.
  repeat match goal with |- context [if ?c then _ else _] => destruct c end;
    reflexivity.
Qed.

Lemma agree_randomFlow q sc qty fair now1 now2 damp o1 o2 :
  agreeFill o1 o2 ->
  agreeM agreeFill (randomFlow q sc qty fair now1 damp o1)
                   (randomFlow q sc qty fair now2 damp o2).
Proof.
  intro Ho. unfold randomFlow. unfold agreeFill in Ho.
  destruct o1 as [f1|], o2 as [f2|]; cbn [option_map] in Ho; try discriminate.
  - apply agree_ret. exact Ho.
  - apply (agree_bind eq agreeFill); [apply agree_callRng|]. intros flow ? <-.
    destruct (flow <? 0.06 * damp).
    + apply (agree_bind eq agreeFill); [apply agree_callRng|]. intros s ? <-.
      apply agree_ret. destruct (s <? 0.5); reflexivity.
    + apply agree_ret. reflexivity.
Qed.

Lemma agree_applyFill f1 f2 sc :
  untimed f1 = untimed f2 -> agreeM eq (applyFill f1 sc) (applyFill f2 sc).
Proof.
  intro Hf. unfold applyFill.
  apply (agree_bind (fun s1 s2 => untimedState s1 = untimedState s2) eq);
    [apply agree_getState|].
  intros st1 st2 Hst.
  pose proof (f_equal Fill.side Hf) as Hside.
  pose proof (f_equal Fill.price Hf) as Hprice.
  pose proof (f_equal Fill.qty Hf) as Hqty.
  pose proof (f_equal Fill.scenario Hf) as Hsc.
  pose proof (f_equal Fill.fair Hf) as Hfair.
  pose proof (f_equal cash Hst) as Hc.
  pose proof (f_equal inv Hst) as Hi.
  pose proof (f_equal realized Hst) as Hr.
  pose proof (f_equal fills Hst) as Hfs.
  cbn [untimed untimedState Fill.side Fill.price Fill.qty Fill.scenario Fill.fair
       cash inv realized fills] in Hside, Hprice, Hqty, Hsc, Hfair, Hc, Hi, Hr, Hfs.
  rewrite Hside, Hprice, Hqty, Hc, Hi.
  destruct (Fill.side f2) eqn:E; apply agree_setState; unfold untimedState; simpl;
    rewrite Hr, !map_app, Hfs; simpl; unfold untimed;
    rewrite Hside, Hprice, Hqty, Hsc, Hfair, ?E; reflexivity.
Qed.

Lemma agree_submitQuote Math q sc qty now1 now2 :
  agreeM agreeFill (submitQuote Math q sc qty now1) (submitQuote Math q sc qty now2).
Proof.
  unfold submitQuote.
  apply (agree_bind eq agreeFill); [apply agree_quoteSanity|]. intros _ _ _.
  apply (agree_bind eq agreeFill); [apply agree_sampleFair|]. intros fair ? <-.
  apply (agree_bind (fun s1 s2 => untimedState s1 = untimedState s2) agreeFill);
    [apply agree_getState|].
  intros st1 st2 Hst.
  assert (Hinv : inv st1 = inv st2)
    by exact (f_equal inv Hst).
  rewrite Hinv.
  apply (agree_bind eq agreeFill); [apply agree_getSettings|]. intros cfg ? <-.
  apply (agree_bind eq agreeFill); [apply agree_callRng|]. intros r ? <-.
  apply (agree_bind agreeFill agreeFill);
    [apply agree_randomFlow, agree_directional|].
  unfold agreeFill at 1.
  intros [f1|] [f2|] Hf; cbn [option_map] in Hf; try discriminate.
  - assert (Hu : untimed f1 = untimed f2) by congruence.
    clear Hf. rename Hu into Hf.
    apply (agree_bind (fun s1 s2 => untimedState s1 = untimedState s2) agreeFill);
      [apply agree_getState|].
    intros st1' st2' Hst'.
    assert (Hinv' : inv st1' = inv st2')
      by exact (f_equal inv Hst').
    assert (Hside : Fill.side f1 = Fill.side f2) by exact (f_equal Fill.side Hf).
    assert (Hqty : Fill.qty f1 = Fill.qty f2) by exact (f_equal Fill.qty Hf).
    rewrite Hinv', Hside, Hqty.
    match goal with |- context [if ?c then _ else _] => destruct c end.
    + apply agree_ret. reflexivity.
    + apply (agree_bind eq agreeFill); [apply agree_applyFill; exact Hf|].
      intros _ _ _. apply agree_ret. unfold agreeFill. simpl. rewrite Hf. reflexivity.
  - apply agree_ret. reflexivity.
Qed.

Lemma submitQuote_untimed Math q sc qty now1 now2 e1 e2 :
  untimedEngine e1 = untimedEngine e2 ->
  untimedOutcome (submitQuote Math q sc qty now1 e1)
  = untimedOutcome (submitQuote Math q sc qty now2 e2).
Proof.
  intro He. pose proof (agree_submitQuote Math q sc qty now1 now2 e1 e2 He) as H.
  destruct (submitQuote Math q sc qty now1 e1) as [r1 e1'|m1 e1'],
           (submitQuote Math q sc qty now2 e2) as [r2 e2'|m2 e2'];
    simpl in H; try contradiction; destruct H as [H1 H2]; simpl.
  - unfold agreeFill in H1. unfold agree in H2. rewrite H1, H2. reflexivity.
  - unfold agree in H2. rewrite H1, H2. reflexivity.
Qed.

Lemma submitAll_untimed Math calls1 : forall calls2 e1 e2,
  map untimedCall calls1 = map untimedCall calls2 ->
  untimedEngine e1 = untimedEngine e2 ->
  map untimedOutcome (submitAll Math calls1 e1)
  = map untimedOutcome (submitAll Math calls2 e2)
  /\ untimedEngine (afterAll Math calls1 e1) = untimedEngine (afterAll Math calls2 e2).
Proof.
  induction calls1 as [|c1 rest1 IH]; intros [|c2 rest2] e1 e2 Hc He;
    try discriminate; simpl.
  - split; [reflexivity | exact He].
  - injection Hc as Hq Hs Hy Hrest. unfold submitCall. rewrite Hq, Hs, Hy.
    pose proof (submitQuote_untimed Math (callQuote c2) (callScenario c2)
                  (callQty c2) (callNow c1) (callNow c2) e1 e2 He) as Ho.
    assert (He' : untimedEngine
                    (engineOf (submitQuote Math (callQuote c2) (callScenario c2)
                                 (callQty c2) (callNow c1) e1))
                  = untimedEngine
                      (engineOf (submitQuote Math (callQuote c2) (callScenario c2)
                                   (callQty c2) (callNow c2) e2))).
    { destruct (submitQuote Math (callQuote c2) (callScenario c2) (callQty c2)
                  (callNow c1) e1),
               (submitQuote Math (callQuote c2) (callScenario c2) (callQty c2)
                  (callNow c2) e2); simpl in *; congruence. }
    destruct (IH rest2 _ _ Hrest He') as [IH1 IH2].
    unfold submitCall in IH1, IH2.
    split; [rewrite Ho, IH1; reflexivity | exact IH2].
Qed.

(** ** The generator, call by call *)

Lemma wrapU32_wrapI32_add x c : JS.wrapU32 (JS.wrapI32 x + c) = JS.wrapU32 (x + c).
Proof.
  unfold JS.wrapI32, JS.wrapU32.
  destruct (2147483648 <=? x mod 4294967296)%Z; Z.div_mod_to_equations; lia.
Qed.

Lemma wrapI32_wrapI32_add x c : JS.wrapI32 (JS.wrapI32 x + c) = JS.wrapI32 (x + c).
Proof.
  unfold JS.wrapI32 at 1 3. rewrite wrapU32_wrapI32_add. reflexivity.
Qed.

Lemma wrapI32_idem x : JS.wrapI32 (JS.wrapI32 x) = JS.wrapI32 x.
Proof.
  pose proof (wrapI32_wrapI32_add x 0) as H. rewrite !Z.add_0_r in H. exact H.
Qed.

Lemma bor_0_r x : JS.bor x 0 = JS.wrapI32 x.
Proof.
  unfold JS.bor. change (JS.wrapI32 0) with 0%Z.
  rewrite Z.lor_0_r. apply wrapI32_idem.
Qed.

Lemma mulberry32_step_eq a : mulberry32_step a = JS.wrapI32 (a + 0x6d2b79f5).
Proof.
  unfold mulberry32_step, mulberry32_next. cbv zeta. cbn [snd].
  rewrite !bor_0_r. apply wrapI32_wrapI32_add.
Qed.

Lemma mulberry32_iter n a :
  Nat.iter (S n) mulberry32_step a = JS.wrapI32 (a + Z.of_nat (S n) * 0x6d2b79f5).
Proof.
  induction n as [|n IH].
  - cbn [Nat.iter nat_rect]. rewrite mulberry32_step_eq. f_equal.
  - rewrite Nat.iter_succ, IH, mulberry32_step_eq, wrapI32_wrapI32_add.
    f_equal. rewrite (Nat2Z.inj_succ (S n)). ring.
Qed.

Lemma advance_advance m n g : advance m (advance n g) = advance (m + n) g.
Proof.
  destruct g as [a|src pos]; unfold advance.
  - rewrite Nat.iter_add. reflexivity.
  - rewrite Nat.add_assoc. reflexivity.
Qed.

Lemma callRng_advance e :
  exists x, callRng e
            = Returned x (mkEngine (advance 1 (rng e)) (settings e) (state e)).
Proof.
  unfold callRng, advance. destruct (rng e) as [a|src pos].
  - cbn [Nat.iter nat_rect]. unfold mulberry32_step.
    destruct (mulberry32_next a) as [x a']. cbn [snd]. eauto.
  - cbn [Nat.add]. eauto.
Qed.

Lemma drawValue_advance n m g : drawValue n (advance m g) = drawValue (n + m) g.
Proof.
  destruct g as [a|src pos]; unfold drawValue, advance.
  - rewrite Nat.iter_add. reflexivity.
  - rewrite Nat.add_assoc. reflexivity.
Qed.

Lemma callRng_exact e :
  callRng e = Returned (drawValue 0 (rng e))
                (mkEngine (advance 1 (rng e)) (settings e) (state e)).
Proof.
  unfold callRng, drawValue, advance. destruct (rng e) as [a|src pos].
  - cbn [Nat.iter nat_rect]. unfold mulberry32_step.
    destruct (mulberry32_next a) as [x a']. reflexivity.
  - reflexivity.
Qed.

Lemma sampleFair_exact Math tv e :
  sampleFair Math tv e
  = Returned (fairOf Math tv (rng e))
      (mkEngine (advance 2 (rng e)) (settings e) (state e)).
Proof.
  unfold sampleFair, bind, ret. rewrite callRng_exact, callRng_exact.
  cbn [rng settings state]. rewrite drawValue_advance, advance_advance.
  reflexivity.
Qed.

(** The generator is not where it was two calls ago. *)
Lemma advance_5_3 g : advance 5 g <> advance 3 g.
Proof.
  destruct g as [a|src pos]; unfold advance; intro H.
  - apply (f_equal (fun g => match g with
                             | Mulberry a => a
                             | MathRandom _ _ => 0%Z
                             end)) in H.
    cbv beta iota in H.
    rewrite !mulberry32_iter in H.
    apply (f_equal (fun z => JS.wrapU32 (z + 0))) in H.
    cbv beta in H.
    rewrite !wrapU32_wrapI32_add, !Z.add_0_r in H.
    unfold JS.wrapU32 in H.
    change (Z.of_nat 5) with 5%Z in H. change (Z.of_nat 3) with 3%Z in H.
    revert H. Z.div_mod_to_equations. lia.
  - apply (f_equal (fun g => match g with
                             | Mulberry _ => 0%nat
                             | MathRandom _ pos => pos
                             end)) in H.
    cbv beta iota in H. lia.
Qed.
(** * The claims *)

(** C1. For every engine constructed with a positive (finite) inventory
    limit, in particular a positive integer, and every sequence of
    [submitQuote] calls with valid quotes and positive quantities, started on
    the fresh state: no call throws, and after every call
    [|inv| <= inventoryLimit]. *)
Theorem submitQuote_keeps_limit (Math : MathImpl) (random : nat -> float)
    (s : Settings) (calls : list Call) :
  is_finite (inventoryLimit s) = true ->
  (0 <? inventoryLimit s) = true ->
  Forall (fun c => validQuote (callQuote c) = true /\ (0 <? callQty c) = true) calls ->
  Forall (fun o => exists r e', o = Returned r e'
                                /\ (JS.abs (inv (state e')) <=? inventoryLimit s) = true)
         (submitAll Math calls (construct random s)).
Proof.
  intros HL Hpos Hcalls.
  assert (H0 : settings (construct random s) = s
               /\ withinLimit (construct random s) = true).
  { split; [reflexivity|]. unfold withinLimit; simpl.
    apply FloatFacts.leb_of_not_ltb; try reflexivity.
    - apply FloatFacts.finite_not_nan, HL.
    - apply (FloatFacts.ltb_not_ltb _ _ Hpos). }
  revert H0. generalize (construct random s) as e.
  induction Hcalls as [|c rest [Hv Hq] _ IH]; intros e [Se He]; simpl.
  - constructor.
  - pose proof (submitQuote_withinLimit Math (callQuote c) (callScenario c)
                  (callQty c) (callNow c) e) as Hstep.
    pose proof (submitQuote_settings Math (callQuote c) (callScenario c)
                  (callQty c) (callNow c) e) as Hset.
    destruct (submitQuote_valid_returns Math (callQuote c) (callScenario c)
                (callQty c) (callNow c) e Hv) as (r & e' & Hr).
    unfold submitCall. rewrite Hr in *. simpl in *.
    rewrite Se in Hstep. specialize (Hstep HL Hq He).
    constructor.
    + exists r, e'. split; [reflexivity|].
      unfold withinLimit in Hstep. rewrite Hset, Se in Hstep. exact Hstep.
    + apply IH. split; [congruence | exact Hstep].
Qed.

Lemma submitQuote_keeps_limit_witness :
  Forall (fun o => exists r e', o = Returned r e'
                                /\ (JS.abs (inv (state e')) <=? 10) = true)
         (submitAll RefMath.impl
            [mkCall Examples.around Examples.dow 1 1000;
             mkCall Examples.high Examples.dow 10 2000;
             mkCall Examples.high Examples.dow 1 3000]
            Examples.fresh).
Proof.
  apply (submitQuote_keeps_limit RefMath.impl Examples.noRandom Examples.defaults).
  - reflexivity.
  - reflexivity.
  - repeat constructor.
Defined.

(** C2. [submitQuote] throws exactly when the quote fails the sanity contract
    (bid or ask not finite, bid <= 0 or ask <= 0, or bid >= ask); the error
    is one of the three sanity errors; and when it throws, the engine is as
    it was before the call: no number was drawn from the generator, and
    cash, inventory, fills and lastMark are untouched. *)
Theorem submitQuote_throws_iff (Math : MathImpl) (q : Quote) (sc : Scenario.t)
    (qty now : float) (e : Engine) :
  ((exists msg e', submitQuote Math q sc qty now e = Thrown msg e')
   <-> failsSanity q = true)
  /\ (forall msg e', submitQuote Math q sc qty now e = Thrown msg e' ->
        e' = e /\ In msg sanityErrors).
Proof.
  split; [split|].
  - intros (msg & e' & H).
    destruct (submitQuote_result Math q sc qty now e); try discriminate. assumption.
  - intro Hf. unfold submitQuote, bind.
    destruct (quoteSanity_cases q e) as [[Hs _] | [_ [msg [_ ->]]]].
    + congruence.
    + eauto.
  - intros msg e' H.
    destruct (submitQuote_result Math q sc qty now e) as [msg0 Hs Hm| |];
      try discriminate.
    injection H as <- <-. split; [reflexivity | exact Hm].
Qed.

(** C3. When [submitQuote] returns a fill, exactly one of these holds: the
    fill's side is BUY, cash went down by price*qty and inventory up by qty;
    or its side is SELL, cash went up by price*qty and inventory down by qty.
    Either way the fill was appended once to the history, lastMark is the
    scenario's true value, and the rest of the state (realized, the settings)
    is unchanged. *)
Theorem submitQuote_fill_applied (Math : MathImpl) (q : Quote) (sc : Scenario.t)
    (qty now : float) (e e' : Engine) (f : Fill.t) :
  submitQuote Math q sc qty now e = Returned (Some f) e' ->
  FillApplied q sc qty e e' f.
Proof.
  intros H.
  pose proof (submitQuote_result Math q sc qty now e) as R. rewrite H in R.
  inversion R as [ | | f0 e0 Hs Se Hqty Hsc Hts Hp Hc Te]; subst f0 e0.
  unfold FillApplied, BuyApplied, SellApplied. rewrite Te. unfold ledgerAfter.
  destruct (Fill.side f) eqn:Sd; simpl;
    (split; [ auto | ]);
    (split; [ intros [[A _] [B _]]; congruence | ]);
    rewrite ?length_app; simpl; repeat split; auto; lia.
Qed.

Lemma submitQuote_fill_applied_witness :
  exists f e',
    submitQuote RefMath.impl Examples.high Examples.dow 1 1000 Examples.fresh
    = Returned (Some f) e'
    /\ FillApplied Examples.high Examples.dow 1 Examples.fresh e' f.
Proof.
  do 2 eexists. split; [vm_compute; reflexivity|].
  apply (submitQuote_fill_applied RefMath.impl Examples.high Examples.dow 1 1000).
  vm_compute; reflexivity.
Defined.

(** C4. When [submitQuote] returns no fill (no trade was generated, or the
    candidate fill was rejected by the inventory limit), the state (cash,
    inventory, realized, lastMark and the fill history) is exactly what it
    was before the call, and so are the settings. *)
Theorem submitQuote_no_fill_frame (Math : MathImpl) (q : Quote) (sc : Scenario.t)
    (qty now : float) (e e' : Engine) :
  submitQuote Math q sc qty now e = Returned None e' ->
  state e' = state e /\ settings e' = settings e.
Proof.
  intro H.
  pose proof (submitQuote_result Math q sc qty now e) as R. rewrite H in R.
  inversion R; auto.
Qed.

(** A buy of 11 units against a limit of 10 is rejected. *)
Lemma submitQuote_no_fill_frame_witness :
  exists e',
    submitQuote RefMath.impl Examples.high Examples.dow 11 1000 Examples.fresh
    = Returned None e'
    /\ state e' = state Examples.fresh /\ settings e' = settings Examples.fresh.
Proof.
  eexists. split; [vm_compute; reflexivity|].
  apply (submitQuote_no_fill_frame RefMath.impl Examples.high Examples.dow 11 1000).
  vm_compute; reflexivity.
Defined.

(** C5 as stated fails.  Two engines built from the same settings and the
    same seed, given the same quote, scenario and quantity, return fills that
    differ in [ts] when the clock reads 1000 during one call and 2000 during
    the other: the fill records are not byte-identical. *)
Lemma seeded_fills_differ_in_ts :
  let e1 := construct Examples.noRandom Examples.defaults in
  let e2 := construct Examples.noRandom Examples.defaults in
  let o1 := submitQuote RefMath.impl Examples.around Examples.dow 1 1000 e1 in
  let o2 := submitQuote RefMath.impl Examples.around Examples.dow 1 2000 e2 in
  option_map Fill.ts (returnedFill o1) = Some 1000
  /\ option_map Fill.ts (returnedFill o2) = Some 2000
  /\ map Fill.ts (fills (state (engineOf o1))) = [1000]
  /\ map Fill.ts (fills (state (engineOf o2))) = [2000]
  /\ (1000 =? 2000) = false.
Proof. vm_compute. repeat split. Qed.

(** C5, amended. With a numeric seed, two engines built from the same settings
    and given the same sequence of [submitQuote] calls (same quotes, scenarios
    and quantities, in the same order) produce the same outcomes, fill for
    fill, and the same final state in everything but the [ts] of the fills,
    which is what the clock read during each call; whatever [Math.random]
    would have returned plays no part.  When the clock readings are the same
    too, the outcomes and the final engines are identical. *)
Theorem seeded_runs_agree (Math : MathImpl) (random1 random2 : nat -> float)
    (s : Settings) (calls1 calls2 : list Call) :
  seed s <> None ->
  map untimedCall calls1 = map untimedCall calls2 ->
  let e1 := construct random1 s in
  let e2 := construct random2 s in
  map untimedOutcome (submitAll Math calls1 e1)
  = map untimedOutcome (submitAll Math calls2 e2)
  /\ untimedEngine (afterAll Math calls1 e1) = untimedEngine (afterAll Math calls2 e2)
  /\ (calls1 = calls2 ->
      submitAll Math calls1 e1 = submitAll Math calls2 e2
      /\ afterAll Math calls1 e1 = afterAll Math calls2 e2).
Proof.
  intros Hseed Hcalls e1 e2.
  assert (He : e1 = e2).
  { subst e1 e2. unfold construct. destruct (seed s); [reflexivity | congruence]. }
  destruct (submitAll_untimed Math calls1 calls2 e1 e2 Hcalls) as [H1 H2].
  { rewrite He. reflexivity. }
  split; [exact H1|]. split; [exact H2|].
  intros ->. rewrite He. split; reflexivity.
Qed.

Lemma seeded_runs_agree_witness :
  let calls1 := [mkCall Examples.around Examples.dow 1 1000;
                 mkCall Examples.high Examples.dow 1 1500] in
  let calls2 := [mkCall Examples.around Examples.dow 1 2000;
                 mkCall Examples.high Examples.dow 1 2600] in
  let e1 := construct Examples.noRandom Examples.defaults in
  let e2 := construct (fun _ => 0.5) Examples.defaults in
  map untimedOutcome (submitAll RefMath.impl calls1 e1)
  = map untimedOutcome (submitAll RefMath.impl calls2 e2)
  /\ untimedEngine (afterAll RefMath.impl calls1 e1)
     = untimedEngine (afterAll RefMath.impl calls2 e2).
Proof.
  cbv zeta.
  destruct (seeded_runs_agree RefMath.impl Examples.noRandom (fun _ => 0.5)
              Examples.defaults
              [mkCall Examples.around Examples.dow 1 1000;
               mkCall Examples.high Examples.dow 1 1500]
              [mkCall Examples.around Examples.dow 1 2000;
               mkCall Examples.high Examples.dow 1 2600])
    as (H1 & H2 & _).
  - discriminate.
  - reflexivity.
  - split; [exact H1 | exact H2].
Defined.

(** The scenario of the specification: default settings, no inventory,
    estimate 100, predefined spread 10: bid 95, ask 105. *)
Example defaultQuote_fresh_100 :
  defaultQuote 100 Examples.fresh = Returned (mkQuote 95 105) Examples.fresh.
Proof. reflexivity. Qed.

(** On the engine reached by one accepted buy of 10 units (limit 10,
    invSkew 2, predefined spread 10), [defaultQuote(1)] returns bid = 1e-6 and
    ask = -4: the estimate is positive, the inventory is within the limit,
    and bid < ask is false. *)
Lemma defaultQuote_crossed :
  let e1 := runOps RefMath.impl
              [OpSubmitQuote (mkCall Examples.high Examples.dow 10 1000)]
              (construct Examples.noRandom Examples.skewed) in
  inv (state e1) = 10
  /\ withinLimit e1 = true
  /\ (0 <=? invSkew (settings e1)) = true
  /\ (0 <=? spreadWiden (settings e1)) = true
  /\ (0 <? 1) = true
  /\ defaultQuote 1 e1 = Returned (mkQuote 1e-6 (-4)) e1
  /\ (1e-6 <? -4) = false.
Proof. vm_compute. repeat split. Qed.

(** C6. The code departs from the claim.  [defaultQuote] floors the base
    half-spread and the bid at 1e-6, but the bid alone: on the engine reached
    by one accepted buy of 10 units (limit 10, invSkew 2, predefined spread
    10), [defaultQuote(1)] returns bid = 1e-6 and ask = -4, so bid < ask is
    false; and the quote it returns is one [submitQuote] refuses, its
    [quoteSanity] throwing on it. *)
Lemma defaultQuote_refused_by_quoteSanity :
  let e1 := runOps RefMath.impl
              [OpSubmitQuote (mkCall Examples.high Examples.dow 10 1000)]
              (construct Examples.noRandom Examples.skewed) in
  let q := mkQuote 1e-6 (-4) in
  inv (state e1) = 10
  /\ withinLimit e1 = true
  /\ defaultQuote 1 e1 = Returned q e1
  /\ (bid q <? ask q) = false
  /\ failsSanity q = true
  /\ submitQuote RefMath.impl q Examples.dow 1 2000 e1
     = Thrown "Bid/ask must be > 0" e1.
Proof. vm_compute. repeat split. Qed.

(** With the default settings and no inventory, an estimate of 1e20 swallows
    the half-spread of 5 in rounding: bid = ask = 1e20, and [submitQuote]
    refuses that quote too. *)
Lemma defaultQuote_absorbed :
  defaultQuote 1e20 Examples.fresh = Returned (mkQuote 1e20 1e20) Examples.fresh
  /\ submitQuote RefMath.impl (mkQuote 1e20 1e20) Examples.dow 1 2000 Examples.fresh
     = Thrown "Bid must be < ask" Examples.fresh.
Proof. vm_compute. split; reflexivity. Qed.

(** What [defaultQuote] does keep: it leaves the engine as it was and returns
    bid = max(1e-6, mid - half) and ask = mid + half; the bid is at least
    1e-6, hence positive, unless mid - half is NaN; and bid < ask is the same
    as the ask being above both the floor 1e-6 and mid - half. *)
Lemma defaultQuote_bid_floor (estimate : float) (e : Engine) :
  let mid := quoteMid e estimate in
  let half := quoteHalf e estimate in
  exists q, defaultQuote estimate e = Returned q e
    /\ bid q = JS.max 1e-6 (mid - half)
    /\ ask q = mid + half
    /\ (0 <? bid q) = negb (is_nan (mid - half))
    /\ (1e-6 <=? bid q) = negb (is_nan (mid - half))
    /\ (bid q <? ask q) = (1e-6 <? ask q) && (mid - half <? ask q).
Proof.
  cbv zeta. eexists. split; [reflexivity|]. simpl.
  fold (quoteHalf e estimate). fold (quoteMid e estimate).
  set (lo := quoteMid e estimate - quoteHalf e estimate).
  set (hi := quoteMid e estimate + quoteHalf e estimate).
  split; [reflexivity|]. split; [reflexivity|].
  destruct (is_nan lo) eqn:Nlo.
  - rewrite (FloatFacts.max_nan_r _ _ Nlo). simpl.
    assert (H : (lo <? hi) = false).
    { destruct (lo <? hi) eqn:E; [|reflexivity].
      apply FloatFacts.ltb_not_nan in E. destruct E; congruence. }
    rewrite H, andb_false_r, FloatFacts.ltb_nan_l. repeat split; reflexivity.
  - rewrite (FloatFacts.max_floor 1e-6 lo eq_refl eq_refl Nlo). simpl.
    destruct (1e-6 <? lo) eqn:E.
    + split; [apply (FloatFacts.ltb_trans 0 1e-6 lo eq_refl E)|].
      split.
      * apply FloatFacts.leb_of_not_ltb; try assumption; try reflexivity.
        apply (FloatFacts.ltb_not_ltb _ _ E).
      * destruct (lo <? hi) eqn:E2.
        -- rewrite (FloatFacts.ltb_trans _ _ _ E E2). reflexivity.
        -- rewrite andb_false_r. reflexivity.
    + split; [reflexivity|]. split; [reflexivity|].
      destruct (1e-6 <? hi) eqn:E2; [|reflexivity].
      assert (L : (lo <=? 1e-6) = true)
        by (apply FloatFacts.leb_of_not_ltb; try assumption; reflexivity).
      rewrite (FloatFacts.leb_ltb_trans _ _ _ L E2). reflexivity.
Qed.

(** C7 as stated fails: with the mark Infinity, [pnl] on a fresh engine
    returns mtm = NaN and riskAdj = NaN, not 0. *)
Lemma pnl_fresh_infinite_mark :
  pnl infinity Examples.fresh = Returned (PnL.mk 0 0 nan nan) Examples.fresh.
Proof. vm_compute. reflexivity. Qed.

(** C7, amended. [pnl(mark)] leaves the engine as it was, so a second call
    returns the same object; it returns the current cash and inventory,
    mtm = cash + inv*mark and riskAdj = mtm - riskAversion*|inv|*0.01*mark;
    on the fresh state it returns cash = 0, inv = 0, mtm = 0 and riskAdj = 0
    for every finite mark, when the risk aversion is finite. *)
Theorem pnl_spec (mark : float) (e : Engine) :
  exists r, pnl mark e = Returned r e
    /\ (r' <- pnl mark ;; r'' <- pnl mark ;; ret (r', r'')) e = Returned (r, r) e
    /\ PnL.cash r = cash (state e)
    /\ PnL.inv r = inv (state e)
    /\ PnL.mtm r = cash (state e) + inv (state e) * mark
    /\ PnL.riskAdj r
       = PnL.mtm r - riskAversion (settings e) * JS.abs (inv (state e)) * 0.01 * mark
    /\ (state e = freshState ->
        is_finite mark = true ->
        is_finite (riskAversion (settings e)) = true ->
        r = PnL.mk 0 0 0 0).
Proof.
  rewrite pnl_unfold. eexists. split; [reflexivity|].
  split; [reflexivity|]. simpl. repeat split.
  intros Hs Hm Hr. rewrite Hs. simpl.
  assert (Z1 : 0 + 0 * mark = 0).
  { apply FloatFacts.zero_add_zero, FloatFacts.mul_zero_l; [reflexivity | exact Hm]. }
  rewrite Z1.
  assert (Z2 : 0 - riskAversion (settings e) * JS.abs 0 * 0.01 * mark = 0).
  { apply FloatFacts.zero_sub_zero.
    apply FloatFacts.mul_zero_l; [|exact Hm].
    apply FloatFacts.mul_zero_l; [|reflexivity].
    apply FloatFacts.mul_zero_r; [exact Hr | reflexivity]. }
  rewrite Z2. reflexivity.
Qed.

Lemma pnl_spec_witness :
  pnl 30 Examples.fresh = Returned (PnL.mk 0 0 0 0) Examples.fresh.
Proof.
  destruct (pnl_spec 30 Examples.fresh) as (r & H & _ & _ & _ & _ & _ & F).
  rewrite H. f_equal. apply F; reflexivity.
Defined.

(** C8. For every engine state, [breakEven()] returns the absent value exactly
    when the inventory equals 0 ([inv === 0]); otherwise it returns
    [-cash / inv]; and it leaves the engine as it was. *)
Theorem breakEven_spec (e : Engine) :
  exists r, breakEven e = Returned r e
    /\ (r = None <-> (inv (state e) =? 0) = true)
    /\ ((inv (state e) =? 0) = false
        -> r = Some (- cash (state e) / inv (state e))).
Proof.
  unfold breakEven, bind, getState, ret.
  destruct (inv (state e) =? 0) eqn:E.
  - exists None. repeat split; auto; discriminate.
  - eexists. split; [reflexivity|]. split; [split; discriminate | reflexivity].
Qed.

(** The if / else-if of lines 103-109 read as a table. *)
Lemma directional_rule (q : Quote) (sc : Scenario.t) (qty fair now : float)
    (pBuy pSell damp r : float) :
  let buySide := (0.60 <? pBuy * damp) && (r <? pBuy * damp) in
  let sellSide := (0.60 <? pSell * damp) && (r <? pSell * damp) in
  let d := directional q sc qty fair now pBuy pSell damp r in
  (d = Some (Fill.mk SELL (ask q) qty sc fair now) <-> buySide = true)
  /\ (d = Some (Fill.mk BUY (bid q) qty sc fair now)
      <-> buySide = false /\ sellSide = true)
  /\ (d = None <-> buySide = false /\ sellSide = false)
  /\ (forall f e, d = Some f ->
        randomFlow q sc qty fair now damp d e = Returned (Some f) e).
Proof.
  cbv zeta. unfold directional.
  destruct ((0.60 <? pBuy * damp) && (r <? pBuy * damp));
    destruct ((0.60 <? pSell * damp) && (r <? pSell * damp));
    repeat split; intros; try discriminate; try tauto;
    try match goal with H : _ /\ _ |- _ => destruct H; discriminate end;
    try match goal with H : Some _ = Some _ |- _ =>
          injection H as <-; reflexivity end.
Qed.

(** What [submitQuote] does with a quote that passes the sanity check, in
    terms of the numbers its generator returns. *)
Lemma submitQuote_closed_form (Math : MathImpl) (q : Quote) (sc : Scenario.t)
    (qty now : float) (e : Engine) :
  failsSanity q = false ->
  let g := rng e in
  let fair := fairOf Math (Scenario.trueValue sc) g in
  let pBuy := pBuyOf Math q sc fair in
  let pSell := pSellOf Math q sc fair in
  let damp := dampOf e in
  let r := drawValue 2 g in
  submitQuote Math q sc qty now e
  = if (0.60 <? pBuy * damp) && (r <? pBuy * damp) then
      settle e 3 sc (Fill.mk SELL (ask q) qty sc fair now)
    else if (0.60 <? pSell * damp) && (r <? pSell * damp) then
      settle e 3 sc (Fill.mk BUY (bid q) qty sc fair now)
    else if drawValue 3 g <? 0.06 * damp then
      settle e 5 sc (if drawValue 4 g <? 0.5
                     then Fill.mk BUY (bid q) qty sc fair now
                     else Fill.mk SELL (ask q) qty sc fair now)
    else Returned None (mkEngine (advance 4 g) (settings e) (state e)).
Proof.
  intro Hs. cbv zeta. unfold submitQuote. unfold bind at 1.
  destruct (quoteSanity_cases q e) as [[_ ->] | [Hf _]]; [|congruence].
  unfold bind at 1. rewrite sampleFair_exact.
  unfold bind at 1, getState at 1. unfold bind at 1, getSettings at 1.
  unfold bind at 1. rewrite callRng_exact.
  cbn [rng settings state]. rewrite drawValue_advance, advance_advance.
  cbn [Nat.add].
  unfold dampOf, pBuyOf, pSellOf, directional.
  set (fair := fairOf Math (Scenario.trueValue sc) (rng e)).
  set (damp := clamp _ 0.35 1).
  set (pBuy := 1 / (1 + Math_exp Math (- (fair - ask q) / _))).
  set (pSell := 1 / (1 + Math_exp Math (- (bid q - fair) / _))).
  set (r := drawValue 2 (rng e)).
  assert (Hsettle : forall k f,
    (st <- getState ;;
     (if inventoryLimit (settings e)
          <? JS.abs (inv st + match Fill.side f with
                              | BUY => Fill.qty f
                              | SELL => - Fill.qty f
                              end)
      then ret None
      else applyFill f sc ;;; ret (Some f)))
      (mkEngine (advance k (rng e)) (settings e) (state e))
    = settle e k sc f).
  { intros k f. unfold settle, admits, signedQty, ledgerAfter.
    unfold bind, getState, applyFill, setState, ret. cbn [rng settings state].
    destruct (inventoryLimit (settings e) <? _); cbn [negb]; [reflexivity|].
    destruct (Fill.side f); reflexivity. }
  destruct ((0.60 <? pBuy * damp) && (r <? pBuy * damp)).
  { unfold bind at 1. unfold randomFlow, ret at 1. apply Hsettle. }
  destruct ((0.60 <? pSell * damp) && (r <? pSell * damp)).
  { unfold bind at 1. unfold randomFlow, ret at 1. apply Hsettle. }
  unfold bind at 1. unfold randomFlow. unfold bind at 1.
  rewrite callRng_exact. cbn [rng settings state].
  rewrite drawValue_advance, advance_advance. cbn [Nat.add].
  destruct (drawValue 3 (rng e) <? 0.06 * damp); [|reflexivity].
  unfold bind at 1. rewrite callRng_exact. cbn [rng settings state].
  rewrite drawValue_advance, advance_advance. cbn [Nat.add].
  unfold ret at 1.
  destruct (drawValue 4 (rng e) <? 0.5); apply Hsettle.
Qed.

(** C9. In [submitQuote], with [pBuy], [pSell] and [damp] computed from the
    sampled fair value and the inventory, and [r] the single draw that
    follows the two draws of the fair value: the call is decided by the
    customer-buys side (the maker sells at the ask) when [pBuy * damp > 0.60]
    and [r < pBuy * damp]; otherwise by the customer-sells side (the maker
    buys at the bid) when [pSell * damp > 0.60] and [r < pSell * damp];
    otherwise by the random flow, which draws again.  So a call returns a
    fill after exactly three draws, a directional fill, if and only if one
    side qualifies (the buy side first) and the inventory limit admits the
    fill; there is at most one fill per call. *)
Theorem submitQuote_directional (Math : MathImpl) (q : Quote) (sc : Scenario.t)
    (qty now : float) (e : Engine) :
  failsSanity q = false ->
  let g := rng e in
  let fair := fairOf Math (Scenario.trueValue sc) g in
  let pBuy := pBuyOf Math q sc fair in
  let pSell := pSellOf Math q sc fair in
  let damp := dampOf e in
  let r := drawValue 2 g in
  let buySide := (0.60 <? pBuy * damp) && (r <? pBuy * damp) in
  let sellSide := (0.60 <? pSell * damp) && (r <? pSell * damp) in
  let sells := Fill.mk SELL (ask q) qty sc fair now in
  let buys := Fill.mk BUY (bid q) qty sc fair now in
  (buySide = true -> submitQuote Math q sc qty now e = settle e 3 sc sells)
  /\ (buySide = false -> sellSide = true ->
      submitQuote Math q sc qty now e = settle e 3 sc buys)
  /\ (buySide = false -> sellSide = false ->
      exists k, (4 <= k <= 5)%nat
        /\ rng (engineOf (submitQuote Math q sc qty now e)) = advance k g)
  /\ (forall f e',
        (submitQuote Math q sc qty now e = Returned (Some f) e'
         /\ rng e' = advance 3 g)
        <-> ((buySide = true /\ f = sells)
             \/ (buySide = false /\ sellSide = true /\ f = buys))
            /\ admits e f = true
            /\ e' = mkEngine (advance 3 g) (settings e)
                             (ledgerAfter (state e) f sc)).
Proof.
  intro Hs. pose proof (submitQuote_closed_form Math q sc qty now e Hs) as H.
  cbv zeta in *.
  set (fair := fairOf Math (Scenario.trueValue sc) (rng e)) in *.
  set (buySide := (0.60 <? pBuyOf Math q sc fair * dampOf e)
                  && (drawValue 2 (rng e) <? pBuyOf Math q sc fair * dampOf e)) in *.
  set (sellSide := (0.60 <? pSellOf Math q sc fair * dampOf e)
                   && (drawValue 2 (rng e) <? pSellOf Math q sc fair * dampOf e)) in *.
  set (sells := Fill.mk SELL (ask q) qty sc fair now) in *.
  set (buys := Fill.mk BUY (bid q) qty sc fair now) in *.
  set (flows := if drawValue 4 (rng e) <? 0.5 then buys else sells) in *.
  rewrite H. clear H.
  split; [intros ->; reflexivity|].
  split; [intros -> ->; reflexivity|].
  split.
  { intros -> ->. destruct (drawValue 3 (rng e) <? 0.06 * dampOf e).
    - exists 5%nat. split; [lia|]. unfold settle.
      destruct (admits e flows); reflexivity.
    - exists 4%nat. split; [lia | reflexivity]. }
  intros f e'. split.
  - intros [Hr Hg]. revert Hr.
    destruct buySide; [|destruct sellSide].
    + unfold settle. destruct (admits e sells) eqn:Ha; intro Hr; [|discriminate].
      injection Hr as <- <-. auto.
    + unfold settle. destruct (admits e buys) eqn:Ha; intro Hr; [|discriminate].
      injection Hr as <- <-. auto 6.
    + destruct (drawValue 3 (rng e) <? 0.06 * dampOf e); [|discriminate].
      unfold settle. destruct (admits e flows); intro Hr; [|discriminate].
      injection Hr as <- <-. cbn [rng] in Hg.
      destruct (advance_5_3 _ Hg).
  - intros (Hside & Ha & ->). cbn [rng]. split; [|reflexivity].
    destruct Hside as [[-> ->] | (-> & -> & ->)]; unfold settle; rewrite Ha;
      reflexivity.
Qed.

(** With seed 1 and the quote 29/31 on [dow] the customer-buys side
    qualifies: the maker sells at 31 after three draws. *)
Lemma submitQuote_directional_witness :
  exists fair e',
    submitQuote RefMath.impl Examples.around Examples.dow 1 1000 Examples.fresh
    = Returned (Some (Fill.mk SELL 31 1 Examples.dow fair 1000)) e'
    /\ rng e' = advance 3 (rng Examples.fresh).
Proof.
  pose proof (submitQuote_directional RefMath.impl Examples.around Examples.dow
                1 1000 Examples.fresh eq_refl) as H.
  cbv zeta in H. destruct H as (_ & _ & _ & H).
  do 2 eexists. apply H. split; [left; split; [vm_compute|]; reflexivity|].
  split; [vm_compute|]; reflexivity.
Defined.

(** C10. [realized] is 0 in the fresh state and no operation writes it: after
    any sequence of [submitQuote], [pnl], [defaultQuote] and [breakEven]
    calls on a fresh engine, [realized] is 0. *)
Theorem realized_always_zero (Math : MathImpl) (random : nat -> float)
    (s : Settings) (ops : list Op) :
  realized (state (runOps Math ops (construct random s))) = 0.
Proof.
  assert (H : realized (state (construct random s)) = 0) by reflexivity.
  revert H. generalize (construct random s) as e.
  unfold runOps. induction ops as [|op ops IH]; intros e H; simpl.
  - exact H.
  - apply IH. rewrite stepOp_realized. exact H.
Qed.


(** * Further properties of the engine *)

(** ** [clamp] *)

Lemma clamp_within x lo hi :
  (lo <=? hi) = true -> is_nan x = false ->
  (lo <=? clamp x lo hi) = true /\ (clamp x lo hi <=? hi) = true.
Proof.
  intros H Nx. destruct (FloatFacts.leb_not_nan _ _ H) as [Nlo Nhi].
  unfold clamp.
  destruct (FloatFacts.max_cases lo x Nlo Nx) as (Hm & Hl & _).
  assert (Nm : is_nan (JS.max lo x) = false)
    by (destruct Hm as [-> | ->]; assumption).
  destruct (FloatFacts.min_cases hi (JS.max lo x) Nhi Nm) as (Hr & Hh & _).
  split; [|exact Hh].
  destruct Hr as [-> | ->]; assumption.
Qed.

(** X1. [clamp(x, lo, hi)] of a number [x], with [lo <= hi], lies between
    [lo] and [hi]; of NaN it is NaN. *)
Theorem clamp_bounds (x lo hi : float) :
  (lo <=? hi) = true ->
  (is_nan x = false ->
     (lo <=? clamp x lo hi) = true /\ (clamp x lo hi <=? hi) = true)
  /\ (is_nan x = true -> clamp x lo hi = nan).
Proof.
  intro H. split.
  - apply clamp_within, H.
  - intro Nx. unfold clamp.
    rewrite (FloatFacts.max_nan lo x) by (rewrite Nx; apply orb_true_r).
    apply FloatFacts.min_nan. apply orb_true_r.
Qed.

Lemma clamp_bounds_witness :
  (0.35 <=? clamp 1.7 0.35 1) = true /\ (clamp 1.7 0.35 1 <=? 1) = true.
Proof.
  destruct (clamp_bounds 1.7 0.35 1 eq_refl) as [H _]. apply H. reflexivity.
Defined.

(** X2. The damping factor of [submitQuote] lies between 0.35 and 1 whenever the
    inventory is finite and the inventory limit is a number. *)
Theorem damp_range (e : Engine) :
  is_finite (inv (state e)) = true ->
  is_nan (inventoryLimit (settings e)) = false ->
  (0.35 <=? dampOf e) = true /\ (dampOf e <=? 1) = true.
Proof.
  intros Hi HL. unfold dampOf.
  apply clamp_within; [reflexivity|].
  destruct (FloatFacts.max_cases 1 (inventoryLimit (settings e)) eq_refl HL)
    as (Hm & H1 & _).
  assert (Hp : (0 <? JS.max 1 (inventoryLimit (settings e))) = true).
  { apply (FloatFacts.ltb_leb_trans 0 1); [reflexivity | exact H1]. }
  apply FloatFacts.sub_fin_not_nan; [reflexivity|].
  apply FloatFacts.mul_not_nan; [reflexivity | reflexivity |].
  apply FloatFacts.div_pos_not_nan; [|exact Hp].
  unfold JS.abs. rewrite FloatFacts.abs_finite. exact Hi.
Qed.

Lemma damp_range_witness :
  (0.35 <=? dampOf Examples.fresh) = true /\ (dampOf Examples.fresh <=? 1) = true.
Proof. apply (damp_range Examples.fresh); reflexivity. Defined.

(** ** The seeded generator *)

(** X3. Each call of the [mulberry32] closure advances its variable [a] by
    0x6d2b79f5 modulo 2^32, whatever it returns: after [n + 1] calls from [a]
    the variable is [ToInt32(a + (n + 1) * 0x6d2b79f5)].  The number a call
    returns is [w / 4294967296] for an integer [0 <= w < 2^32]. *)
Theorem mulberry32_weyl (a : Z) (n : nat) :
  Nat.iter (S n) mulberry32_step a
  = JS.wrapI32 (a + Z.of_nat (S n) * 0x6d2b79f5)
  /\ exists w, (0 <= w < 4294967296)%Z
               /\ fst (mulberry32_next a) = JS.ofZ w / 4294967296.
Proof.
  split.
  - apply mulberry32_iter.
  - unfold mulberry32_next. cbv zeta. cbn [fst].
    eexists. split; [|reflexivity].
    unfold JS.ushr. rewrite Z.shiftr_0_r. unfold JS.wrapU32.
    apply Z.mod_pos_bound. reflexivity.
Qed.

(** ** How many numbers a call draws *)

Section Draws.

Variable Math : MathImpl.

Lemma sampleFair_advance tv e :
  exists x, sampleFair Math tv e
            = Returned x (mkEngine (advance 2 (rng e)) (settings e) (state e)).
Proof.
  unfold sampleFair, bind, ret.
  destruct (callRng_advance e) as [u ->].
  destruct (callRng_advance (mkEngine (advance 1 (rng e)) (settings e) (state e)))
    as [v ->].
  cbn [rng settings state]. rewrite advance_advance. eauto.
Qed.

Lemma randomFlow_advance q sc qty fair now damp o e :
  exists r k, (k <= 2)%nat
    /\ randomFlow q sc qty fair now damp o e
       = Returned r (mkEngine (advance k (rng e)) (settings e) (state e)).
Proof.
  unfold randomFlow, bind, ret. destruct o as [f|].
  - exists (Some f), 0%nat. split; [lia|].
    destruct e as [g s st]. destruct g; reflexivity.
  - destruct (callRng_advance e) as [flow ->].
    destruct (flow <? 0.06 * damp).
    + destruct (callRng_advance (mkEngine (advance 1 (rng e)) (settings e) (state e)))
        as [s ->].
      cbn [rng settings state]. rewrite advance_advance.
      eexists. exists 2%nat. split; [lia | reflexivity].
    + eexists. exists 1%nat. split; [lia | reflexivity].
Qed.

(** X4. A call of [submitQuote] that passes the sanity check draws three, four
    or five numbers from the generator: two for the fair value, one for the
    directional trade, and up to two for the random flow. *)
Theorem submitQuote_draws (q : Quote) (sc : Scenario.t) (qty now : float)
    (e : Engine) :
  failsSanity q = false ->
  exists k, (3 <= k <= 5)%nat
    /\ rng (engineOf (submitQuote Math q sc qty now e)) = advance k (rng e).
Proof.
  intro Hs. unfold submitQuote. unfold bind at 1.
  destruct (quoteSanity_cases q e) as [[_ ->] | [Hf _]]; [|congruence].
  unfold bind at 1.
  destruct (sampleFair_advance (Scenario.trueValue sc) e) as [fair ->].
  unfold bind at 1, getState at 1. unfold bind at 1, getSettings at 1.
  unfold bind at 1.
  match goal with |- context [callRng ?e1] =>
    destruct (callRng_advance e1) as [r ->] end.
  cbn [rng settings state]. rewrite advance_advance.
  unfold bind at 1.
  match goal with |- context [randomFlow ?a ?b ?c ?d ?g ?h ?o ?e2] =>
    destruct (randomFlow_advance a b c d g h o e2) as (res & k & Hk & ->) end.
  cbn [rng settings state]. rewrite advance_advance.
  exists (k + (1 + 2))%nat. split; [lia|].
  destruct res as [f|]; [|reflexivity].
  unfold bind, getState, applyFill, setState, ret. cbn [rng settings state].
  match goal with |- context [if ?c then _ else _] => destruct c end;
    [reflexivity|].
  destruct (Fill.side f); reflexivity.
Qed.

End Draws.

Lemma submitQuote_draws_witness :
  exists k, (3 <= k <= 5)%nat
    /\ rng (engineOf (submitQuote RefMath.impl Examples.around Examples.dow 1 1000
                        Examples.fresh))
       = advance k (rng Examples.fresh).
Proof.
  apply (submitQuote_draws RefMath.impl Examples.around Examples.dow 1 1000
           Examples.fresh).
  reflexivity.
Defined.

(** ** The fill history and the ledger *)

Section History.

Variable Math : MathImpl.

(** X5. The fill history is append-only: after a sequence of [submitQuote]
    calls it is the history before them followed by the fills the calls
    returned, in order (so its length grows by the number of accepted
    trades). *)
Theorem fills_history (calls : list Call) (e : Engine) :
  fills (state (afterAll Math calls e))
  = fills (state e) ++ returnedFills (submitAll Math calls e).
Proof.
  revert e. induction calls as [|c rest IH]; intro e; simpl.
  - rewrite app_nil_r. reflexivity.
  - rewrite IH. unfold submitCall, returnedFills. simpl.
    fold (returnedFills (submitAll Math rest
            (engineOf (submitQuote Math (callQuote c) (callScenario c)
                         (callQty c) (callNow c) e)))).
    destruct (submitQuote_result Math (callQuote c) (callScenario c)
                (callQty c) (callNow c) e)
      as [msg Hs Hm | e' Hs Se Te | f e' Hs Se Hqty Hsc Hts Hp Hc Te]; simpl.
    + reflexivity.
    + rewrite Te. reflexivity.
    + rewrite Te. unfold ledgerAfter.
      destruct (Fill.side f); simpl; rewrite <- app_assoc; reflexivity.
Qed.

Lemma stepOp_ledgerConsistent op e :
  ledgerConsistent e -> ledgerConsistent (stepOp Math op e).
Proof.
  intros (Hc & Hi & Hl). destruct op as [c|mark|estimate|]; simpl.
  - unfold submitCall.
    destruct (submitQuote_result Math (callQuote c) (callScenario c)
                (callQty c) (callNow c) e)
      as [msg Hs Hm | e' Hs Se Te | f e' Hs Se Hqty Hsc Hts Hp Hk Te]; simpl.
    + repeat split; assumption.
    + unfold ledgerConsistent. rewrite Te. repeat split; assumption.
    + unfold ledgerConsistent. rewrite Te.
      unfold ledgerAfter, replayCash, replayInv, lastFillMark.
      destruct (Fill.side f) eqn:Sd; cbn [cash inv lastMark fills];
        rewrite !fold_left_app, rev_unit; cbn [fold_left];
        rewrite Sd, Hsc; unfold replayCash, replayInv in Hc, Hi;
        rewrite <- Hc, <- Hi; repeat split; reflexivity.
  - repeat split; assumption.
  - repeat split; assumption.
  - destruct (breakEven_pure e) as [r ->]. repeat split; assumption.
Qed.

(** X6. On an engine driven only through its methods, cash, inventory and
    lastMark are functions of the fill history: cash and inventory are the
    fills replayed in order from zero, and lastMark is the true value of the
    last fill's scenario (null when there is no fill). *)
Theorem ledger_replays_history (random : nat -> float) (s : Settings)
    (ops : list Op) :
  ledgerConsistent (runOps Math ops (construct random s)).
Proof.
  assert (H : ledgerConsistent (construct random s))
    by (repeat split; reflexivity).
  revert H. generalize (construct random s) as e.
  unfold runOps. induction ops as [|op ops IH]; intros e H; simpl.
  - exact H.
  - apply IH, stepOp_ledgerConsistent, H.
Qed.

Lemma submitQuote_throws_as_quoteSanity q sc qty now e msg :
  submitQuote Math q sc qty now e = Thrown msg e
  <-> quoteSanity q e = Thrown msg e.
Proof.
  pose proof (submitQuote_result Math q sc qty now e) as R.
  unfold submitQuote in *. unfold bind at 1 in R. unfold bind at 1.
  destruct (quoteSanity_cases q e) as [[Hs Hq] | [Hs [m [_ Hq]]]]; rewrite Hq in *.
  - split; intro H; [|discriminate].
    rewrite H in R. inversion R. congruence.
  - split; intro H; injection H as ->; reflexivity.
Qed.

(** X7. Which error [submitQuote] throws: "Bad quote" when bid or ask is not
    finite; otherwise "Bid/ask must be > 0" when one of them is not positive;
    otherwise "Bid must be < ask" when bid >= ask. *)
Theorem submitQuote_error_message (q : Quote) (sc : Scenario.t) (qty now : float)
    (e : Engine) :
  let finite := JS.isFinite (bid q) && JS.isFinite (ask q) in
  let positive := negb ((bid q <=? 0) || (ask q <=? 0)) in
  (submitQuote Math q sc qty now e = Thrown "Bad quote" e <-> finite = false)
  /\ (submitQuote Math q sc qty now e = Thrown "Bid/ask must be > 0" e
      <-> finite = true /\ positive = false)
  /\ (submitQuote Math q sc qty now e = Thrown "Bid must be < ask" e
      <-> finite = true /\ positive = true /\ (ask q <=? bid q) = true).
Proof.
  cbv zeta. rewrite !submitQuote_throws_as_quoteSanity.
  unfold quoteSanity, throw, ret.
  destruct (JS.isFinite (bid q)), (JS.isFinite (ask q)); simpl;
    destruct (bid q <=? 0); simpl; try destruct (ask q <=? 0); simpl;
    try destruct (ask q <=? bid q);
    repeat split; intros; try discriminate; try reflexivity;
    repeat match goal with H : _ /\ _ |- _ => destruct H end; discriminate.
Qed.

End History.

(** ** The default quote at zero inventory *)

(** X8. With no inventory the skew does not move the mid: for a positive
    estimate, a limit that is a number, a finite invSkew and a finite
    half-spread, [defaultQuote] returns bid = max(1e-6, estimate - half) and
    ask = estimate + half. *)
Theorem defaultQuote_flat (estimate : float) (e : Engine) :
  is_zero (inv (state e)) = true ->
  is_nan (inventoryLimit (settings e)) = false ->
  is_finite (invSkew (settings e)) = true ->
  is_finite (quoteHalf e estimate) = true ->
  (0 <? estimate) = true ->
  quoteMid e estimate = estimate
  /\ defaultQuote estimate e
     = Returned (mkQuote (JS.max 1e-6 (estimate - quoteHalf e estimate))
                         (estimate + quoteHalf e estimate)) e.
Proof.
  intros Hz HL Hk Hh He.
  assert (Hmid : quoteMid e estimate = estimate).
  { unfold quoteMid.
    destruct (FloatFacts.max_cases 1 (inventoryLimit (settings e)) eq_refl HL)
      as (_ & H1 & _).
    assert (Hp : (0 <? JS.max 1 (inventoryLimit (settings e))) = true)
      by (apply (FloatFacts.ltb_leb_trans 0 1); [reflexivity | exact H1]).
    pose proof (FloatFacts.div_zero_l _ _ Hz Hp) as Hq.
    set (z := inv (state e) / JS.max 1 (inventoryLimit (settings e))) in *.
    assert (Hc : clamp z (-1) 1 = z).
    { destruct (FloatFacts.zero_between z Hq) as [Hlo Hhi].
      pose proof (FloatFacts.zero_not_nan z Hq) as Nz.
      unfold clamp.
      assert (Hm : JS.max (-1) z = z)
        by (unfold JS.max; rewrite Nz, Hlo; reflexivity).
      rewrite Hm. unfold JS.min. rewrite Nz, Hhi.
      rewrite (FloatFacts.ltb_not_ltb _ _ Hhi). reflexivity. }
    cbv zeta. rewrite Hc.
    apply FloatFacts.add_zero_r; [exact He|].
    apply FloatFacts.mul_zero_l; [|exact Hh].
    apply FloatFacts.mul_zero_r; [|exact Hq].
    rewrite FloatFacts.opp_finite. exact Hk. }
  split; [exact Hmid|].
  rewrite defaultQuote_bid_ask_shape, Hmid. reflexivity.
Qed.

Lemma defaultQuote_flat_witness :
  quoteMid Examples.fresh 100 = 100
  /\ defaultQuote 100 Examples.fresh
     = Returned (mkQuote (JS.max 1e-6 (100 - quoteHalf Examples.fresh 100))
                         (100 + quoteHalf Examples.fresh 100)) Examples.fresh.
Proof. apply (defaultQuote_flat 100 Examples.fresh); reflexivity. Defined.

(** ** The valuation of a flat book *)

(** X9. With no inventory, [pnl(mark)] values the book at its cash: for a finite
    mark and a finite risk aversion, mtm and riskAdj both equal cash
    ([===]), whatever the mark; there is no risk penalty. *)
Theorem pnl_flat (mark : float) (e : Engine) :
  is_zero (inv (state e)) = true ->
  is_nan (cash (state e)) = false ->
  is_finite mark = true ->
  is_finite (riskAversion (settings e)) = true ->
  exists r, pnl mark e = Returned r e
    /\ (PnL.mtm r =? cash (state e)) = true
    /\ (PnL.riskAdj r =? cash (state e)) = true.
Proof.
  intros Hz Hc Hm Hr. rewrite pnl_unfold. eexists. split; [reflexivity|].
  cbn [PnL.mtm PnL.riskAdj].
  apply FloatFacts.add_sub_zeros; [exact Hc | |].
  - apply FloatFacts.mul_zero_l; assumption.
  - apply FloatFacts.mul_zero_l; [|exact Hm].
    apply FloatFacts.mul_zero_l; [|reflexivity].
    apply FloatFacts.mul_zero_r; [exact Hr|].
    unfold JS.abs. rewrite FloatFacts.is_zero_SF, abs_spec.
    rewrite FloatFacts.is_zero_SF in Hz.
    destruct (Prim2SF (inv (state e))); try discriminate; reflexivity.
Qed.

Lemma pnl_flat_witness :
  exists r, pnl 30 Examples.fresh = Returned r Examples.fresh
    /\ (PnL.mtm r =? cash (state Examples.fresh)) = true
    /\ (PnL.riskAdj r =? cash (state Examples.fresh)) = true.
Proof. apply (pnl_flat 30 Examples.fresh); reflexivity. Defined.
